(* ===== verification/_CoqProject ===== *)
-Q . S2P
Prelude.v
JsNum.v
Wallet.v
Chain.v
State.v
WalletSession.v
TxLifecycle.v
WaveLog.v
WaveCount.v
Semantics.v
LogProperties.v
SessionProperties.v
TxProperties.v
Completion.v
