(* ===== verification/Prelude.v ===== *)
(** * A verification library for the wave portal client (src/src/App.jsx)

    The program is one React component, [App] in src/src/App.jsx.  It keeps
    six pieces of React state ([currentAccount], [mining], [waves],
    [fetchingWaveLength], [allWaves], [value]) and drives three external
    collaborators: the browser wallet ([window.ethereum], reached through
    [ethereum.request]), the WavePortal contract (reached through an ethers
    [Contract] built by [setupContract]) and React itself (effects, the
    render, the buttons).  Every handler is an [async] function: its body
    runs synchronously up to the first [await], then the event loop resumes
    it when the awaited promise settles, interleaved with the other
    handlers, with wallet prompts, with blocks being mined and with
    [NewWave] events being delivered.

    ** Files, in dependency order

    - [Prelude] (this file): the shared library.  The type [result] of
      fallible calls; executions of a partial step function ([run]) and
      their relation to stdpp's [rtc]; list and prefix lemmas, among them
      [lookup_snoc_length] and its siblings for the task a handler has
      just suspended on (the last of the list);
      [rtc_preserved]; the hint database [wave], the rewrite database
      [wave_simpl] and the tactic [invc].
    - [JsNum]: the JavaScript numbers the component computes with.  The
      contract returns uint256 values (ethers [BigNumber]); the component
      turns them into JS numbers ([Number(count)], line 33, and
      [timestamp * 1000], lines 136 and 174) and dates ([new Date]).
      [round_double] is IEEE-754 round-to-nearest-even on integers,
      written with [Z.shiftr], [Z.land] and [Z.log2]; [new_Date] applies
      the [TimeClip] of ECMAScript; [js_truthy_string] is the truthiness
      of [!currentAccount] (line 221).  [round_double_nearest] shows the
      bit-level rounding is round-to-nearest-even.
    - [Wallet]: the provider [window.ethereum] (spec section 6; not in the
      repository): authorised accounts ([eth_accounts]), an approved prompt
      ([approve_accounts]), an account switch, the errors; and
      [first_account], the [accounts.length !== 0] test of lines 60-61.
    - [Chain]: the WavePortal contract and the chain in [Module Contract]
      (spec sections 1 and 6; not in the repository): waves, mempool,
      receipts, [submit] and [mine]; then [setupContract] (lines 16-24) and
      the calls made through its binding, whose signer is resolved when a
      call is made ([signer_address]).  The ContractClient of spec section
      4.2 is the class [ContractClient] with its laws
      [ContractClientLaws]; the ethers binding is an instance
      ([ethers_client_laws]), and [Semantics] proves [settle] against the
      laws alone ([settle_reads_client], [settle_send_client]).
    - [State]: the React state [AppState] (lines 7-12) with one setter per
      [useState]; the continuations [Cont] (one constructor per [await]);
      [World], which adds the lifecycle [phase], the wallet, the chain,
      the suspended tasks, the registered listeners and the alerts;
      [set_state] (a [setX] call, ignored once unmounted) and [spawn] (an
      [await]); [handler_start], the footprint of a handler's synchronous
      segment.
    - [WalletSession]: [checkIfWalletIsConnected] (lines 40-72) and
      [connectWallet] (lines 94-114), with their continuation
      [resume_session].
    - [TxLifecycle]: [wave] (lines 74-92) and its continuation
      [resume_wave]: the [mining] flag set after the send (line 82) and
      cleared after the confirmation or in the [catch].
    - [WaveLog]: [getAllWaves] (lines 116-151), the subscription effect and
      [onNewWave] (lines 165-183), with [resume_log]; the log contract of
      spec section 4.4 as the classes [WaveLogOps] and [WaveLogLaws], with
      [AppState] as an instance.  [wave_of_record] reads a wave back from
      its record: [clean_wave_roundtrip] shows no information is lost, and
      [record_paths_agree] that the fetch loop and the event handler build
      the same records.
    - [WaveCount]: [getWaveCount] (lines 26-38), which nothing calls.
    - [Semantics]: how the parts interact.  [resume] dispatches a settled
      promise to the continuation of its handler; [settle] is the wallet
      and the chain answering an awaited call; [mount] runs the two
      effects and [unmount] runs only the cleanups that an effect returned
      (the async effect returns a Promise, so none); [catch_block] is what
      each handler's [catch] does, and [resume_rejected] shows a rejected
      [await] runs exactly that; [render] is what the markup shows (the
      header and bio texts, the controlled textarea, the buttons, the list
      of entries and their index keys: [onNewWave_keeps_entries]); typed
      text is what the textarea shows and what the next click sends
      ([typed_text_sent]).  [step] is an inductive relation with
      one rule per event (mount, unmount, typing, the two clicks, a promise
      settling, a handler resuming, a block being mined, an event
      delivered, an account switch, another user's wave); [exec] is its
      interpreter; [reachable] is [rtc] of [step] from a page load [init];
      [steps] is a run labelled by its list of events
      ([w --[ evs ]-->* w']), and [click_wave_run] the four steps from a
      click on "Wave at Me" to the send of line 81.
      [tasks_inv_step] and [reachable_invariant] are the two induction
      principles the property files use.
    - [LogProperties]: [allWaves] against the log contract: every
      transition refines a contract operation ([allWaves_refines]), no
      record is made up ([allWaves_from_chain]), an authorised visitor
      sees the whole history for every history
      ([history_shown_when_authorised]); a run in which resuming the fetch
      with its older snapshot erases a record its listener delivered
      ([seed_erases_live_event]), one in which a wave is shown twice, and
      the proof that connecting never fetches the history again
      ([history_hidden_after_connect]).
    - [SessionProperties]: no provider means nothing happens
      ([no_provider_inert]); at most one listener is registered
      ([single_subscription]) and it is never removed, also after
      unmount ([subscription_retained]); from every mounted world, the
      click on "Connect Wallet" and an approved prompt store the wallet's
      first account ([connect_stores_account]), and after an account
      switch the next wave is sent from the wallet's new account, not the
      one shown ([stale_account_redirects]); two clicks on "Connect
      Wallet" open two prompts.
    - [TxProperties]: the busy flag: true only while a transaction is
      pending ([busy_implies_pending]), always clearable by the chain and
      the wallet alone ([busy_flag_can_clear]); two runs that show two
      transactions in flight and the flag cleared while one is pending.
    - [Completion]: every suspended handler runs to its end when the
      chain and the wallet answer ([handlers_complete]), by a measure
      ([weight]) that settling a promise or resuming a handler lowers.

    ** Fuel and bounds

    No definition uses fuel: the handlers have no loop other than the
    [forEach] of [getAllWaves], which is [map] ([clean_waves_map]).  The
    async handlers terminate: [resume_terminates] shows that each
    resumption lowers [cont_depth], which is at most three, and
    [handlers_complete] that the environment can always drive every
    pending handler to its end (the measure [weight] is at most seven per
    handler).  The
    interleaving itself need not terminate (a user may click forever), so
    it is a relation, and liveness is stated as the existence of a run.
    Integers keep their width: timestamps and counts are uint256 values,
    and the JS numbers they become are doubles (53-bit significand,
    [Infinity] from 2^1024; [uint256_conversions_finite] shows no uint256
    conversion of the component reaches it), dates are valid up to 8.64e15 ms.  The runs
    used as counterexamples and witnesses are concrete event lists
    evaluated by [vm_compute] through [run_or].

    ** Not modelled

    The imports (lines 1-4) and the ABI loaded from utils/WavePortal.json
    (line 13), a file that is not in the repository; the class names and
    inline styles of the render (lines 192-214), which carry no state;
    [console.log] (no observable state); the time-zone
    formatting of [Date.toString]; React's batching of renders (updates are applied in
    the order the handlers issue them); StrictMode double effects;
    reorganisations of the chain. *)

From stdpp Require Export base list strings gmap relations.
From Stdlib Require Export ZArith Lia.

Declare Scope wave_scope.
Delimit Scope wave_scope with wave.

Create HintDb wave discriminated.
Create Rewrite HintDb wave_simpl.

Ltac invc H := inversion H; subst; clear H.

(** ** Results of fallible calls *)

Inductive result (A E : Type) :=
| Ok (a : A)
| Err (e : E).
Arguments Ok {A E} a.
Arguments Err {A E} e.

(** ** Executions of a partial step function *)

Section Run.
Context {S L : Type} (f : S -> L -> option S).

(** One step of [f], whatever the label. *)
Definition fstep (s s' : S) : Prop := exists l, f s l = Some s'.

(** Run a list of labels; [None] as soon as one is not enabled. *)
Fixpoint run (s : S) (ls : list L) : option S :=
  match ls with
  | [] => Some s
  | l :: ls' => match f s l with
                | Some s1 => run s1 ls'
                | None => None
                end
  end.

Lemma run_app s ls1 ls2 :
  run s (ls1 ++ ls2) = match run s ls1 with
                       | Some s1 => run s1 ls2
                       | None => None
                       end.
Proof.
  revert s; induction ls1 as [|l ls1 IH]; intros s; simpl; [done|].
  destruct (f s l); [apply IH|done].
Qed.

Lemma run_rtc s ls s' : run s ls = Some s' -> rtc fstep s s'.
Proof.
  revert s; induction ls as [|l ls IH]; intros s; simpl.
  - intros [= ->]. apply rtc_refl.
  - destruct (f s l) as [s1|] eqn:E; [|done].
    intros H. eapply rtc_l; [exists l; exact E|]. by apply IH.
Qed.
End Run.

(** ** Lists *)

Lemma prefix_snoc {A} (l : list A) x : l `prefix_of` l ++ [x].
Proof. by exists [x]. Qed.

Lemma elem_of_snoc {A} (l : list A) x y : y ∈ l ++ [x] <-> y ∈ l \/ y = x.
Proof. rewrite elem_of_app, list_elem_of_singleton. done. Qed.

Lemma Forall_snoc {A} (P : A -> Prop) l x :
  Forall P l -> P x -> Forall P (l ++ [x]).
Proof. intros. apply Forall_app; split; [done|by constructor]. Qed.

Lemma rtc_preserved {A} (R : relation A) (P : A -> Prop) x y :
  (forall a b, R a b -> P a -> P b) -> P x -> rtc R x y -> P y.
Proof. intros Hpres Hx Hr. induction Hr; eauto. Qed.

Lemma elem_of_prefix {A} (l1 l2 : list A) x :
  l1 `prefix_of` l2 -> x ∈ l1 -> x ∈ l2.
Proof. intros [k ->] H. apply elem_of_app. by left. Qed.

(** The task a handler just suspended on is the last one, at index
    [length l]: looking it up, settling it in place and removing it. *)
Lemma lookup_snoc_length {A} (l : list A) x : (l ++ [x]) !! length l = Some x.
Proof. by apply list_lookup_middle. Qed.

Lemma insert_snoc_length {A} (l : list A) x y : <[length l := y]> (l ++ [x]) = l ++ [y].
Proof. by rewrite insert_app_r_alt, Nat.sub_diag by lia. Qed.

Lemma delete_snoc_length {A} (l : list A) x : delete (length l) (l ++ [x]) = l.
Proof. rewrite (delete_middle l [] x). apply app_nil_r. Qed.

#[export] Hint Rewrite @insert_snoc_length @delete_snoc_length : wave_simpl.
#[export] Hint Resolve prefix_snoc Forall_snoc elem_of_prefix : wave.
#[export] Hint Resolve rtc_refl : wave.
