(* ===== verification/JsNum.v ===== *)
(** * JavaScript numbers and dates computed by the component

    The contract returns uint256 values, which ethers hands over as
    [BigNumber] objects.  The component converts them with [Number(count)]
    (src/src/App.jsx line 33) and with [wave.timestamp * 1000] /
    [timestamp * 1000] (lines 136 and 174).  A [BigNumber] has no
    [valueOf], so both conversions go through its decimal [toString] and
    ECMAScript's StringToNumber, i.e. rounding to the nearest double; the
    product is rounded again.  [new Date(t)] applies TimeClip: a time value
    outside [-8.64e15, 8.64e15] milliseconds gives an invalid date.  The
    arguments are uint256 values, so only non-negative integers occur. *)

From S2P Require Import Prelude.

Local Open Scope Z_scope.

Inductive js_number :=
| JsFinite (z : Z)
| JsPosInf.

#[export] Instance js_number_eq_dec : EqDecision js_number.
Proof. solve_decision. Defined.

(** Round a non-negative integer to the nearest double, ties to even,
    with overflow to [Infinity]. *)
Definition round_double (n : Z) : js_number :=
  if n <? 2 ^ 53 then JsFinite n
  else
    let e := Z.log2 n - 52 in
    let q := Z.shiftr n e in
    let r := Z.land n (Z.ones e) in
    let half := Z.shiftl 1 (e - 1) in
    let q' := if (half <? r) || ((r =? half) && Z.odd q) then q + 1 else q in
    let v := Z.shiftl q' e in
    if 2 ^ 1024 <=? v then JsPosInf else JsFinite v.

(** [Number(bn)] for a uint256 [bn]. *)
Definition Number (n : Z) : js_number := round_double n.

(** [x * k] for a JS number [x] and a positive integer literal [k]. *)
Definition js_mul_int (x : js_number) (k : Z) : js_number :=
  match x with
  | JsFinite z => round_double (z * k)
  | JsPosInf => JsPosInf
  end.

Inductive js_date :=
| DateValid (ms : Z)
| DateInvalid.

#[export] Instance js_date_eq_dec : EqDecision js_date.
Proof. solve_decision. Defined.

Definition max_time_value : Z := 8640000000000000.

(** [new Date(v)]: TimeClip of ECMAScript. *)
Definition new_Date (v : js_number) : js_date :=
  match v with
  | JsFinite z => if Z.abs z <=? max_time_value then DateValid z else DateInvalid
  | JsPosInf => DateInvalid
  end.

(** [new Date(ts * 1000)] for a uint256 timestamp in seconds. *)
Definition date_of_timestamp (ts : Z) : js_date :=
  new_Date (js_mul_int (Number ts) 1000).

(** JS truthiness of a string: only [""] is falsy. *)
Definition js_truthy_string (s : string) : bool :=
  match s with
  | EmptyString => false
  | String _ _ => true
  end.

(** ** Lemmas *)

Lemma round_double_small n : n < 2 ^ 53 -> round_double n = JsFinite n.
Proof. intros H. unfold round_double. by rewrite (proj2 (Z.ltb_lt _ _) H). Qed.

(** Above 2^53 the result stays at least 2^53 (or overflows). *)
Lemma round_double_big n :
  2 ^ 53 <= n ->
  match round_double n with JsFinite v => 2 ^ 53 <= v | JsPosInf => True end.
Proof.
  intros H. unfold round_double.
  rewrite (proj2 (Z.ltb_ge _ _) H). cbv zeta.
  assert (Hl : 53 <= Z.log2 n).
  { rewrite <- (Z.log2_pow2 53) by lia. by apply Z.log2_le_mono. }
  destruct (Z.log2_spec n) as [Hlo _]; [lia|].
  set (e := Z.log2 n - 52).
  assert (He : 2 ^ Z.log2 n = 2 ^ 52 * 2 ^ e).
  { rewrite <- Z.pow_add_r by lia. f_equal. lia. }
  assert (Hq : 2 ^ 52 <= Z.shiftr n e).
  { rewrite Z.shiftr_div_pow2 by lia.
    apply Z.div_le_lower_bound; [apply Z.pow_pos_nonneg; lia|]. lia. }
  assert (Hpe : 0 < 2 ^ e) by (apply Z.pow_pos_nonneg; lia).
  assert (H53 : 2 ^ 53 <= 2 ^ Z.log2 n) by (apply Z.pow_le_mono_r; lia).
  assert (Hq' : forall q', Z.shiftr n e <= q' -> 2 ^ 53 <= Z.shiftl q' e).
  { intros q' Hle. rewrite Z.shiftl_mul_pow2 by lia. nia. }
  match goal with |- context [if ?c then ?a + 1 else ?a] =>
    assert (Hc : Z.shiftr n e <= if c then a + 1 else a) by (destruct c; lia) end.
  destruct (2 ^ 1024 <=? _); [done|]. by apply Hq'.
Qed.

Lemma new_Date_big m :
  max_time_value < m -> new_Date (round_double m) = DateInvalid.
Proof.
  intros H. destruct (Z.ltb_spec m (2 ^ 53)) as [Hs|Hs].
  - rewrite round_double_small by done. simpl.
    destruct (Z.leb_spec (Z.abs m) max_time_value); [lia|done].
  - pose proof (round_double_big m Hs) as Hb.
    destruct (round_double m) as [v|]; [|done]. simpl.
    destruct (Z.leb_spec (Z.abs v) max_time_value);
      [unfold max_time_value in *; lia|done].
Qed.

Lemma log2_big n : 2 ^ 53 <= n -> 53 <= Z.log2 n.
Proof. intros H. rewrite <- (Z.log2_pow2 53) by lia. by apply Z.log2_le_mono. Qed.

(** The bit operations of [round_double] as arithmetic: [q] and [r] are the
    quotient and remainder by the unit in the last place, [half] is half of
    it. *)
Lemma round_double_arith n e :
  1 <= e ->
  Z.shiftr n e = n / 2 ^ e /\ Z.land n (Z.ones e) = n mod 2 ^ e /\
  2 * Z.shiftl 1 (e - 1) = 2 ^ e.
Proof.
  intros He. split_and!; [by rewrite Z.shiftr_div_pow2 by lia|by rewrite Z.land_ones by lia|].
  rewrite Z.shiftl_1_l, <- Z.pow_succ_r by lia. f_equal. lia.
Qed.

Lemma date_of_timestamp_ms ts :
  0 <= ts <= 8640000000000 -> date_of_timestamp ts = DateValid (ts * 1000).
Proof.
  intros Hts. unfold date_of_timestamp, Number.
  rewrite round_double_small by lia. simpl.
  rewrite round_double_small by lia. simpl.
  destruct (Z.leb_spec (Z.abs (ts * 1000)) max_time_value);
    [done | unfold max_time_value in *; lia].
Qed.

(** Rounding at most doubles a value, so it stays finite below 2^1023. *)
Lemma round_double_le n :
  0 <= n -> 2 * n < 2 ^ 1024 -> exists v, round_double n = JsFinite v /\ 0 <= v <= 2 * n.
Proof.
  intros H0 Hb. destruct (Z.ltb_spec n (2 ^ 53)) as [Hs|Hs].
  { exists n. rewrite round_double_small by done. split; [done|lia]. }
  unfold round_double. rewrite (proj2 (Z.ltb_ge _ _) Hs). cbv zeta.
  pose proof (log2_big n Hs) as Hl. set (e := Z.log2 n - 52).
  destruct (round_double_arith n e) as (-> & -> & _); [lia|].
  assert (Hp : 0 < 2 ^ e) by (apply Z.pow_pos_nonneg; lia).
  assert (He : 2 ^ e <= n).
  { destruct (Z.log2_spec n) as [Hlo _]; [lia|].
    assert (2 ^ e <= 2 ^ Z.log2 n) by (apply Z.pow_le_mono_r; lia). lia. }
  pose proof (Z.mul_div_le n (2 ^ e) Hp) as Hq. pose proof (Z.div_pos n (2 ^ e) H0 Hp).
  set (q := n / 2 ^ e) in *.
  assert (Hv : forall q', q <= q' <= q + 1 -> 0 <= Z.shiftl q' e <= 2 * n).
  { intros q' Hq'. rewrite Z.shiftl_mul_pow2 by lia. nia. }
  match goal with |- context [if ?c then q + 1 else q] =>
    assert (Hc : q <= (if c then q + 1 else q) <= q + 1) by (destruct c; lia) end.
  destruct (Hv _ Hc) as [Hv0 Hv1].
  rewrite (proj2 (Z.leb_gt _ _)) by lia. by eexists.
Qed.

#[export] Hint Resolve round_double_small new_Date_big : wave.

(** ** Properties *)

(** C30: [Number(count)] (line 33) is exact for every count up to 2^53. *)
Theorem Number_exact n : 0 <= n <= 2 ^ 53 -> Number n = JsFinite n.
Proof.
  intros Hn. unfold Number.
  destruct (Z.eq_dec n (2 ^ 53)) as [->|Hne]; [reflexivity|].
  apply round_double_small. lia.
Qed.

Lemma Number_exact_witness : (0 <= 2 ^ 53 <= 2 ^ 53) /\ Number (2 ^ 53) = JsFinite (2 ^ 53).
Proof. split; [lia | apply Number_exact; lia]. Defined.

(** C33: the record built from a wave (lines 136 and 174) holds a valid
    date, exactly [ts * 1000] ms, for every timestamp up to 8.64e12 s. *)
Theorem date_of_timestamp_valid ts :
  0 <= ts <= 8640000000000 -> date_of_timestamp ts = DateValid (ts * 1000).
Proof. apply date_of_timestamp_ms. Qed.

Lemma date_of_timestamp_valid_witness :
  (0 <= 1690000000 <= 8640000000000) /\
  date_of_timestamp 1690000000 = DateValid (1690000000 * 1000).
Proof. split; [lia | apply date_of_timestamp_valid; lia]. Defined.

(** C34: any larger uint256 timestamp yields an Invalid Date. *)
Theorem date_of_timestamp_invalid ts :
  8640000000000 < ts -> date_of_timestamp ts = DateInvalid.
Proof.
  intros Hts. unfold date_of_timestamp, Number.
  destruct (Z.ltb_spec ts (2 ^ 53)) as [Hs|Hs].
  - rewrite round_double_small by done. apply new_Date_big.
    unfold max_time_value. lia.
  - pose proof (round_double_big ts Hs) as Hb.
    destruct (round_double ts) as [v|]; [|done]. apply new_Date_big.
    unfold max_time_value. lia.
Qed.

Lemma date_of_timestamp_invalid_witness :
  (8640000000000 < 8640000000001) /\ date_of_timestamp 8640000000001 = DateInvalid.
Proof. split; [lia | apply date_of_timestamp_invalid; lia]. Defined.

(** C31: [round_double], the conversion of [Number(count)] above 2^53,
    is IEEE-754 round-to-nearest-even: with [ulp] the spacing of the
    doubles in the binade of [n], the result is a multiple of [ulp], at
    most half an [ulp] from [n], and on a tie it is the even multiple. *)
Theorem round_double_nearest n v :
  2 ^ 53 <= n -> round_double n = JsFinite v ->
  let ulp := 2 ^ (Z.log2 n - 52) in
  v mod ulp = 0 /\ 2 * Z.abs (n - v) <= ulp /\
  (2 * Z.abs (n - v) = ulp -> Z.even (v / ulp) = true).
Proof.
  intros H Hr. cbv zeta. unfold round_double in Hr.
  rewrite (proj2 (Z.ltb_ge _ _) H) in Hr. cbv zeta in Hr.
  pose proof (log2_big n H) as Hl. set (e := Z.log2 n - 52) in *.
  destruct (round_double_arith n e) as (Hq & Hrm & Hh); [lia|]. rewrite Hq, Hrm in Hr.
  assert (Hp : 0 < 2 ^ e) by (apply Z.pow_pos_nonneg; lia).
  pose proof (Z.div_mod n (2 ^ e) ltac:(lia)) as Hn.
  pose proof (Z.mod_pos_bound n (2 ^ e) Hp) as Hb.
  set (q := n / 2 ^ e) in *. set (r := n mod 2 ^ e) in *.
  set (half := Z.shiftl 1 (e - 1)) in *.
  destruct (2 ^ 1024 <=? _); [done|]. injection Hr as <-.
  rewrite Z.shiftl_mul_pow2, Z_mod_mult, Z.div_mul by lia.
  destruct ((half <? r) || ((r =? half) && Z.odd q)) eqn:Hc;
    rewrite ?orb_true_iff, ?orb_false_iff, ?andb_true_iff, ?andb_false_iff,
      ?Z.ltb_lt, ?Z.ltb_ge, ?Z.eqb_eq, ?Z.eqb_neq in Hc.
  - split_and!; [done|lia|]. intros Ht.
    rewrite Z.add_1_r, Z.even_succ. destruct Hc as [Hc|[Hc Ho]]; [lia|done].
  - split_and!; [done|lia|]. intros Ht. destruct Hc as [Hc1 [Hc2|Hc2]]; [lia|].
    rewrite <- Z.negb_odd, Hc2. done.
Qed.

Lemma round_double_nearest_witness :
  2 ^ 53 <= 2 ^ 53 + 1 /\ round_double (2 ^ 53 + 1) = JsFinite (2 ^ 53) /\
  2 * Z.abs (2 ^ 53 + 1 - 2 ^ 53) <= 2 ^ (Z.log2 (2 ^ 53 + 1) - 52).
Proof.
  assert (Hr : round_double (2 ^ 53 + 1) = JsFinite (2 ^ 53)) by (vm_compute; reflexivity).
  split; [lia|]. split; [exact Hr|].
  exact (proj1 (proj2 (round_double_nearest (2 ^ 53 + 1) (2 ^ 53) ltac:(lia) Hr))).
Defined.

(** C32: the conversions of lines 33, 136 and 174 never overflow: for every
    uint256 value [n] (a count or a timestamp), [Number(n)] and
    [Number(n) * 1000] are finite doubles, so the count is a number and
    [new Date] gets a number, never [Infinity]. *)
Theorem uint256_conversions_finite n :
  0 <= n < 2 ^ 256 ->
  (exists v, Number n = JsFinite v) /\ (exists v, js_mul_int (Number n) 1000 = JsFinite v).
Proof.
  intros Hn. unfold Number.
  destruct (round_double_le n) as (v & Hv & Hv0 & Hv1); [lia|lia|].
  rewrite Hv. split; [by exists v|]. simpl.
  destruct (round_double_le (v * 1000)) as (v' & Hv' & _); [lia|lia|]. by exists v'.
Qed.

Lemma uint256_conversions_finite_witness :
  (0 <= 2 ^ 256 - 1 < 2 ^ 256) /\
  (exists v, Number (2 ^ 256 - 1) = JsFinite v) /\
  (exists v, js_mul_int (Number (2 ^ 256 - 1)) 1000 = JsFinite v).
Proof.
  assert (H : 0 <= 2 ^ 256 - 1 < 2 ^ 256) by lia.
  split; [exact H|]. exact (uint256_conversions_finite _ H).
Defined.
