(* ===== verification/Wallet.v ===== *)
(** * The wallet provider [window.ethereum]

    The provider is a browser extension, not code of this repository: it is
    modelled from the wallet capability interface of spec section 6.  It
    answers [eth_accounts] with the accounts already authorised for the
    page (without prompting) and [eth_requestAccounts] by prompting the
    user, who either authorises the wallet's accounts or declines.  The
    errors a provider or ethers can raise are [js_error]; the component
    catches all of them. *)

From S2P Require Import Prelude.

Definition account := string.

Record Provider := mkProvider {
  authorized : list account;
  wallet_accounts : list account;
}.

#[export] Instance Provider_eq_dec : EqDecision Provider.
Proof. solve_decision. Defined.

Inductive js_error :=
| ErrUserRejected
| ErrRequestPending
| ErrNetwork
| ErrUnknownAccount
| ErrCallException
| ErrTypeError.

#[export] Instance js_error_eq_dec : EqDecision js_error.
Proof. solve_decision. Defined.

(** [ethereum.request({ method: "eth_accounts" })]: no prompt. *)
Definition eth_accounts (p : Provider) : list account := authorized p.

(** [ethereum.request({ method: "eth_requestAccounts" })] when the user
    approves the prompt: the wallet's accounts become authorised. *)
Definition approve_accounts (p : Provider) : Provider :=
  {| authorized := wallet_accounts p; wallet_accounts := wallet_accounts p |}.

(** The user switches or revokes accounts in the extension: the page is
    not told (the component does not listen to [accountsChanged]). *)
Definition switch_accounts (p : Provider) (accs : list account) : Provider :=
  {| authorized := accs; wallet_accounts := wallet_accounts p |}.

(** [if (accounts.length !== 0) { const account = accounts[0]; ... }]
    (src/src/App.jsx lines 60-63 and 104-107). *)
Definition first_account (accounts : list account) : option account :=
  match accounts with
  | [] => None
  | a :: _ => Some a
  end.

Lemma eth_accounts_approve p : eth_accounts (approve_accounts p) = wallet_accounts p.
Proof. done. Qed.

Lemma first_account_Some accounts a :
  first_account accounts = Some a <-> exists rest, accounts = a :: rest.
Proof. destruct accounts; simpl; split; naive_solver. Qed.
