(* ===== verification/Chain.v ===== *)
(** * The WavePortal contract, the chain, and the ethers binding

    The contract is not part of this repository: [Contract] models it from
    spec sections 1 and 6 ([getTotalWaves], [getAllWaves], [wave(message)]
    emitting [NewWave(from, message, timestamp)]).  Its state is the list
    of recorded waves; the chain adds a mempool of submitted transactions
    and their receipts.  A transaction is mined once, successfully (a wave
    is appended, which is also the next [NewWave] event) or reverted.

    [Binding] is what [setupContract] (src/src/App.jsx lines 16-24)
    returns: an ethers [Contract] whose signer is [provider.getSigner()],
    i.e. account #0 of [eth_accounts] resolved when a call is made (ethers
    v5 [JsonRpcSigner]), not when the binding is built.  A call made
    through it with no authorised account fails with "unknown account #0";
    a read call needs the signer's address too ([Signer.call] fills in
    [from]).  Event subscriptions are provider-level: a listener registered
    with [contract.on] receives the events of the waves mined after it.
    [ContractClient] and [ContractClientLaws] state the client contract of
    spec section 4.2, which the ethers binding satisfies. *)

From S2P Require Import Prelude Wallet.

Local Open Scope Z_scope.

Module Contract.

(** [struct Wave { address waver; uint256 timestamp; string message; }] *)
Record Wave := mkWave {
  waver : account;
  timestamp : Z;
  message : string;
}.

#[export] Instance Wave_eq_dec : EqDecision Wave.
Proof. solve_decision. Defined.

(** A transaction calling [wave(message)], as sent by the signer. *)
Record Tx := mkTx {
  tx_id : nat;
  tx_from : account;
  tx_message : string;
  tx_gas_limit : Z;
}.

Inductive receipt := Mined | Reverted.

#[export] Instance receipt_eq_dec : EqDecision receipt.
Proof. solve_decision. Defined.

Record Chain := mkChain {
  ch_waves : list Wave;
  ch_mempool : list Tx;
  ch_receipts : gmap nat receipt;
  ch_next_tx : nat;
}.

Definition genesis (history : list Wave) : Chain :=
  {| ch_waves := history; ch_mempool := []; ch_receipts := ∅; ch_next_tx := 0 |}.

Definition uint256_max : Z := 2 ^ 256 - 1.

(** [getTotalWaves()]. *)
Definition getTotalWaves (c : Chain) : Z := Z.of_nat (length (ch_waves c)).

(** [getAllWaves()]. *)
Definition getAllWaves (c : Chain) : list Wave := ch_waves c.

(** A signed transaction enters the mempool under a fresh id. *)
Definition submit (c : Chain) (from : account) (msg : string) (gas : Z) : nat * Chain :=
  let id := ch_next_tx c in
  (id, {| ch_waves := ch_waves c;
          ch_mempool := ch_mempool c ++ [mkTx id from msg gas];
          ch_receipts := ch_receipts c;
          ch_next_tx := S id |}).

Definition find_tx (c : Chain) (id : nat) : option Tx :=
  List.find (fun t => bool_decide (tx_id t = id)) (ch_mempool c).

(** Mining transaction [id] in a block with timestamp [ts]: executed
    successfully ([ok]) the contract records [Wave(msg.sender, ts,
    message)] and emits [NewWave]; otherwise it reverts and only the
    receipt records it. *)
Definition mine (c : Chain) (id : nat) (ts : Z) (ok : bool) : option Chain :=
  match find_tx c id with
  | None => None
  | Some t =>
      Some {| ch_waves := if ok then ch_waves c ++ [mkWave (tx_from t) ts (tx_message t)]
                          else ch_waves c;
              ch_mempool := List.filter (fun t' => negb (bool_decide (tx_id t' = id)))
                                        (ch_mempool c);
              ch_receipts := <[id := if ok then Mined else Reverted]> (ch_receipts c);
              ch_next_tx := ch_next_tx c |}
  end.

End Contract.

#[export] Existing Instances Contract.Wave_eq_dec Contract.receipt_eq_dec.

Import Contract.

(** ** The ethers binding built by [setupContract] *)

Definition contractAddress : string := "0xA8C9F60d5582cB73E7eD7efFbCe760Fb6CC53baE".

Record Binding := mkBinding { b_address : string }.

#[export] Instance Binding_eq_dec : EqDecision Binding.
Proof. solve_decision. Defined.

(** [setupContract]: with [window.ethereum] present it builds
    [new ethers.Contract(contractAddress, contractABI, signer)]; without
    it the bare identifier [ethereum] throws a [ReferenceError], which the
    [catch] logs, and the async function resolves to [undefined]. *)
Definition setupContract (eth : option Provider) : option Binding :=
  match eth with
  | Some _ => Some (mkBinding contractAddress)
  | None => None
  end.

(** The signer's address, resolved at call time: [eth_accounts][0]. *)
Definition signer_address (p : Provider) : option account :=
  first_account (eth_accounts p).

(** [waveContract.getAllWaves()] through the signer. *)
Definition call_getAllWaves (p : Provider) (c : Chain) : result (list Wave) js_error :=
  match signer_address p with
  | Some _ => Ok (getAllWaves c)
  | None => Err ErrUnknownAccount
  end.

(** [waveContract.getTotalWaves()] through the signer. *)
Definition call_getTotalWaves (p : Provider) (c : Chain) : result Z js_error :=
  match signer_address p with
  | Some _ => Ok (getTotalWaves c)
  | None => Err ErrUnknownAccount
  end.

(** [wavePortalContract.wave(value, { gasLimit: 300000 })] once the user has
    signed: the transaction is sent from the signer's current account. *)
Definition send_wave (p : Provider) (c : Chain) (msg : string) (gas : Z)
    : result (nat * Chain) js_error :=
  match signer_address p with
  | Some a => Ok (submit c a msg gas)
  | None => Err ErrUnknownAccount
  end.

(** [waveTxn.wait()]: pending until mined; rejects with [CALL_EXCEPTION]
    when the transaction reverted. *)
Definition wait_receipt (c : Chain) (id : nat) : option (result unit js_error) :=
  match ch_receipts c !! id with
  | None => None
  | Some Mined => Some (Ok tt)
  | Some Reverted => Some (Err ErrCallException)
  end.

(** ** Lemmas *)

Lemma mine_waves c id ts ok c' :
  mine c id ts ok = Some c' -> ch_waves c `prefix_of` ch_waves c'.
Proof.
  unfold mine. destruct (find_tx c id); intros; simplify_eq/=.
  destruct ok; simpl; [apply prefix_snoc|done].
Qed.

Lemma submit_waves c a m g : ch_waves (submit c a m g).2 = ch_waves c.
Proof. done. Qed.

#[export] Hint Resolve mine_waves : wave.
#[export] Hint Rewrite submit_waves : wave_simpl.

(** ** Transactions the chain knows about *)

(** Transaction [id] is in the mempool or has a receipt. *)
Definition tracked (c : Chain) (id : nat) : Prop :=
  (exists t, t ∈ ch_mempool c /\ tx_id t = id) \/ is_Some (ch_receipts c !! id).

Lemma submit_tracked_new c a m g : tracked (submit c a m g).2 (submit c a m g).1.
Proof. left. eexists. split; [apply elem_of_snoc; by right|done]. Qed.

Lemma submit_tracked c a m g id : tracked c id -> tracked (submit c a m g).2 id.
Proof.
  intros [(t & Ht & Hid)|Hr]; [left|by right].
  exists t. split; [apply elem_of_snoc; by left|done].
Qed.

Lemma mine_tracked c id' ts ok c' id : mine c id' ts ok = Some c' -> tracked c id -> tracked c' id.
Proof.
  unfold mine. destruct (find_tx c id'); intros H Htr; simplify_eq/=.
  unfold tracked; simpl. destruct (decide (id = id')) as [->|Hne].
  { right. rewrite lookup_insert_eq. by eexists. }
  destruct Htr as [(t' & Ht & Hid)|Hr].
  - left. exists t'. split; [|done]. apply list_elem_of_In, filter_In. split.
    + by apply list_elem_of_In.
    + rewrite Hid. by rewrite bool_decide_false.
  - right. by rewrite lookup_insert_ne.
Qed.

Lemma mine_receipt c id ts ok c' : mine c id ts ok = Some c' -> is_Some (ch_receipts c' !! id).
Proof.
  unfold mine. destruct (find_tx c id); intros; simplify_eq/=.
  rewrite lookup_insert_eq. by eexists.
Qed.

Lemma find_tx_mempool c id t : t ∈ ch_mempool c -> tx_id t = id -> is_Some (find_tx c id).
Proof.
  intros Ht Hid. unfold find_tx. destruct (List.find _ _) eqn:E; [by eexists|].
  apply list_elem_of_In in Ht. pose proof (find_none _ _ E t Ht) as Hf. simpl in Hf.
  by rewrite bool_decide_true in Hf.
Qed.

Lemma mine_enabled c id ts ok t :
  t ∈ ch_mempool c -> tx_id t = id -> exists c', mine c id ts ok = Some c'.
Proof.
  intros Ht Hid. destruct (find_tx_mempool c id t Ht Hid) as [t' Ht'].
  unfold mine. rewrite Ht'. by eexists.
Qed.

Lemma wait_receipt_Some c id : is_Some (ch_receipts c !! id) -> is_Some (wait_receipt c id).
Proof. intros [r Hr]. unfold wait_receipt. rewrite Hr. destruct r; by eexists. Qed.

#[export] Hint Resolve submit_tracked_new submit_tracked mine_tracked mine_receipt : wave.

(** ** The contract client of spec section 4.2 *)

(** What a client of the contract offers the component: building a
    binding, the two reads and the write. *)
Class ContractClient (B : Type) := {
  client_bind : option Provider -> option B;
  client_fetchAllWaves : B -> Provider -> Chain -> result (list Wave) js_error;
  client_totalWaveCount : B -> Provider -> Chain -> result Z js_error;
  client_submitWave : B -> Provider -> Chain -> string -> Z -> result (nat * Chain) js_error;
}.

(** Its contract: no binding without a provider; reads and writes go
    through the account the provider signs with when the call is made,
    and fail when there is none. *)
Class ContractClientLaws (B : Type) `{ContractClient B} := {
  bind_needs_provider eth : is_Some (client_bind eth) <-> is_Some eth;
  fetch_signed b p c :
    client_fetchAllWaves b p c =
    match signer_address p with Some _ => Ok (ch_waves c) | None => Err ErrUnknownAccount end;
  count_signed b p c :
    client_totalWaveCount b p c =
    match signer_address p with
    | Some _ => Ok (Z.of_nat (length (ch_waves c)))
    | None => Err ErrUnknownAccount
    end;
  submit_signed b p c m g :
    client_submitWave b p c m g =
    match signer_address p with Some a => Ok (submit c a m g) | None => Err ErrUnknownAccount end;
}.

(** The ethers binding of [setupContract] (lines 16-24) is such a client. *)
#[export] Instance ethers_client : ContractClient Binding := {|
  client_bind := setupContract;
  client_fetchAllWaves _ := call_getAllWaves;
  client_totalWaveCount _ := call_getTotalWaves;
  client_submitWave _ := send_wave;
|}.

#[export] Instance ethers_client_laws : ContractClientLaws Binding.
Proof.
  split; [|done..]. intros [p|]; simpl; split; intros [x Hx]; try discriminate; by eexists.
Qed.
