(* ===== verification/State.v ===== *)
(** * React state and the world the component runs in

    [AppState] is the state of [App] (src/src/App.jsx lines 7-12), with one
    setter per [useState] hook.  The component's [async] handlers are
    suspended at their [await]s; a suspended handler is a [Task]: where it
    stopped ([Cont], one constructor per [await] of the source) and, once
    the awaited promise has settled, the value ([settled]).  [World] holds
    the React state and everything the component talks to: the wallet
    ([w_eth] is [window.ethereum]), the chain, the pending tasks, the
    registered [NewWave] listeners and the [alert]s shown.

    [set_state] is React's state update: applied while the component is
    mounted, ignored afterwards.  [handler_start] is the footprint shared by
    the synchronous segments that start a handler; [cont_depth] counts the
    [await]s a suspended handler has left. *)

From S2P Require Import Prelude JsNum Wallet Chain.

Local Open Scope Z_scope.

(** ** React state *)

(** [{ address, timestamp, message }] as built at lines 134-138 and
    172-176. *)
Record WaveRecord := mkRecord {
  address : account;
  timestamp : js_date;
  message : string;
}.

#[export] Instance WaveRecord_eq_dec : EqDecision WaveRecord.
Proof. solve_decision. Defined.

(** Lines 7-12. [waves] holds [Number(count)]. *)
Record AppState := mkApp {
  currentAccount : string;
  mining : bool;
  waves : js_number;
  fetchingWaveLength : bool;
  allWaves : list WaveRecord;
  value : string;
}.

Definition app_init : AppState :=
  {| currentAccount := ""; mining := false; waves := JsFinite 0;
     fetchingWaveLength := false; allWaves := []; value := "" |}.

Definition setCurrentAccount (a : string) (s : AppState) : AppState :=
  {| currentAccount := a; mining := mining s; waves := waves s;
     fetchingWaveLength := fetchingWaveLength s; allWaves := allWaves s; value := value s |}.
Definition setMining (b : bool) (s : AppState) : AppState :=
  {| currentAccount := currentAccount s; mining := b; waves := waves s;
     fetchingWaveLength := fetchingWaveLength s; allWaves := allWaves s; value := value s |}.
Definition setWave (n : js_number) (s : AppState) : AppState :=
  {| currentAccount := currentAccount s; mining := mining s; waves := n;
     fetchingWaveLength := fetchingWaveLength s; allWaves := allWaves s; value := value s |}.
Definition setFetchingWaveLength (b : bool) (s : AppState) : AppState :=
  {| currentAccount := currentAccount s; mining := mining s; waves := waves s;
     fetchingWaveLength := b; allWaves := allWaves s; value := value s |}.
Definition setAllWaves (l : list WaveRecord) (s : AppState) : AppState :=
  {| currentAccount := currentAccount s; mining := mining s; waves := waves s;
     fetchingWaveLength := fetchingWaveLength s; allWaves := l; value := value s |}.
Definition setValue (v : string) (s : AppState) : AppState :=
  {| currentAccount := currentAccount s; mining := mining s; waves := waves s;
     fetchingWaveLength := fetchingWaveLength s; allWaves := allWaves s; value := v |}.

(** ** Promises, continuations and the world *)

Inductive js_value :=
| VUndefined
| VBinding (b : Binding)
| VAccounts (accs : list account)
| VTxHandle (id : nat)
| VReceipt
| VWaves (ws : list Contract.Wave)
| VCount (n : Z).

Inductive settled :=
| Fulfilled (v : js_value)
| Rejected (e : js_error).

(** Where each handler is suspended. *)
Inductive Cont :=
| KCheckAccounts          (* checkIfWalletIsConnected, await at line 57 *)
| KConnectAccounts        (* connectWallet, await at line 102 *)
| KWaveSetup (v : string) (* wave, await at line 79; [value] of the clicked render *)
| KWaveSend (v : string)  (* wave, await at line 81 *)
| KWaveWait (id : nat)    (* wave, await at line 83 *)
| KAllSetup               (* getAllWaves, await at line 120 *)
| KAllFetch               (* getAllWaves, await at line 125 *)
| KCountSetup             (* getWaveCount, await at line 29 *)
| KCountFetch             (* getWaveCount, await at line 31 *)
| KSubscribeSetup.        (* the subscription effect, await at line 181 *)

Record Task := mkTask { t_cont : Cont; t_settled : option settled }.

(** A [NewWave] subscription: the index of the next event it receives. *)
Record Listener := mkListener { l_cursor : nat }.

Inductive phase := NotMounted | Mounted | Unmounted.

#[export] Instance phase_eq_dec : EqDecision phase.
Proof. solve_decision. Defined.

#[export] Instance js_value_eq_dec : EqDecision js_value.
Proof. solve_decision. Defined.
#[export] Instance settled_eq_dec : EqDecision settled.
Proof. solve_decision. Defined.
#[export] Instance Cont_eq_dec : EqDecision Cont.
Proof. solve_decision. Defined.
#[export] Instance Task_eq_dec : EqDecision Task.
Proof. solve_decision. Defined.
#[export] Instance Listener_eq_dec : EqDecision Listener.
Proof. solve_decision. Defined.

Record World := mkWorld {
  w_phase : phase;
  w_app : AppState;
  w_eth : option Provider;
  w_chain : Contract.Chain;
  w_tasks : list Task;
  w_listeners : list Listener;
  w_alerts : list string;
}.

Definition init (eth : option Provider) (history : list Contract.Wave) : World :=
  {| w_phase := NotMounted; w_app := app_init; w_eth := eth;
     w_chain := Contract.genesis history; w_tasks := []; w_listeners := [];
     w_alerts := [] |}.

(** A freshly mounted component with wallet [eth] and an empty chain. *)
Definition mounted_world (eth : option Provider) : World :=
  {| w_phase := Mounted; w_app := app_init; w_eth := eth;
     w_chain := Contract.genesis []; w_tasks := []; w_listeners := [];
     w_alerts := [] |}.

Definition set_phase (ph : phase) (w : World) : World :=
  {| w_phase := ph; w_app := w_app w; w_eth := w_eth w; w_chain := w_chain w;
     w_tasks := w_tasks w; w_listeners := w_listeners w; w_alerts := w_alerts w |}.
Definition set_app (s : AppState) (w : World) : World :=
  {| w_phase := w_phase w; w_app := s; w_eth := w_eth w; w_chain := w_chain w;
     w_tasks := w_tasks w; w_listeners := w_listeners w; w_alerts := w_alerts w |}.
Definition set_eth (eth : option Provider) (w : World) : World :=
  {| w_phase := w_phase w; w_app := w_app w; w_eth := eth; w_chain := w_chain w;
     w_tasks := w_tasks w; w_listeners := w_listeners w; w_alerts := w_alerts w |}.
Definition set_chain (c : Contract.Chain) (w : World) : World :=
  {| w_phase := w_phase w; w_app := w_app w; w_eth := w_eth w; w_chain := c;
     w_tasks := w_tasks w; w_listeners := w_listeners w; w_alerts := w_alerts w |}.
Definition set_tasks (ts : list Task) (w : World) : World :=
  {| w_phase := w_phase w; w_app := w_app w; w_eth := w_eth w; w_chain := w_chain w;
     w_tasks := ts; w_listeners := w_listeners w; w_alerts := w_alerts w |}.
Definition set_listeners (ls : list Listener) (w : World) : World :=
  {| w_phase := w_phase w; w_app := w_app w; w_eth := w_eth w; w_chain := w_chain w;
     w_tasks := w_tasks w; w_listeners := ls; w_alerts := w_alerts w |}.

(** A React state update: applied only while the component is mounted. *)
Definition set_state (f : AppState -> AppState) (w : World) : World :=
  match w_phase w with
  | Mounted => set_app (f (w_app w)) w
  | _ => w
  end.

(** Suspend a handler at an [await]. *)
Definition spawn (k : Cont) (s : option settled) (w : World) : World :=
  set_tasks (w_tasks w ++ [mkTask k s]) w.

(** [alert(msg)]. *)
Definition alert (msg : string) (w : World) : World :=
  {| w_phase := w_phase w; w_app := w_app w; w_eth := w_eth w; w_chain := w_chain w;
     w_tasks := w_tasks w; w_listeners := w_listeners w; w_alerts := w_alerts w ++ [msg] |}.

(** The value an awaited [setupContract(...)] settles to. *)
Definition settle_setup (eth : option Provider) : settled :=
  Fulfilled (match setupContract eth with
             | Some b => VBinding b
             | None => VUndefined
             end).

(** ** Footprints: what each piece of the semantics touches *)

Section Footprint.
  Implicit Types (w : World) (f : AppState -> AppState).

Lemma set_state_phase f w : w_phase (set_state f w) = w_phase w.
  Proof. unfold set_state. by case_match. Qed.
Lemma set_state_eth f w : w_eth (set_state f w) = w_eth w.
  Proof. unfold set_state. by case_match. Qed.
Lemma set_state_chain f w : w_chain (set_state f w) = w_chain w.
  Proof. unfold set_state. by case_match. Qed.
Lemma set_state_tasks f w : w_tasks (set_state f w) = w_tasks w.
  Proof. unfold set_state. by case_match. Qed.
Lemma set_state_listeners f w : w_listeners (set_state f w) = w_listeners w.
  Proof. unfold set_state. by case_match. Qed.
Lemma set_state_alerts f w : w_alerts (set_state f w) = w_alerts w.
  Proof. unfold set_state. by case_match. Qed.
Lemma set_state_app f w :
    w_app (set_state f w) = if decide (w_phase w = Mounted) then f (w_app w) else w_app w.
  Proof. unfold set_state. by repeat case_match. Qed.
End Footprint.

#[export] Hint Rewrite set_state_phase set_state_eth set_state_chain set_state_tasks
  set_state_listeners set_state_alerts : wave_simpl.

(** ** Footprint of the synchronous segments that start a handler *)

(** The first [await] of each handler. *)
Definition first_await (k : Cont) : bool :=
  match k with
  | KCheckAccounts | KConnectAccounts | KWaveSetup _ | KAllSetup | KCountSetup
  | KSubscribeSetup => true
  | _ => false
  end.

(** The number of [await]s a handler suspended at [k] still has to pass,
    this one included. *)
Definition cont_depth (k : Cont) : nat :=
  match k with
  | KWaveSetup _ => 3
  | KWaveSend _ | KAllSetup | KCountSetup => 2
  | KCheckAccounts | KConnectAccounts | KWaveWait _ | KAllFetch | KCountFetch
  | KSubscribeSetup => 1
  end.

(** The first [await]s that wait on the wallet ([ethereum.request],
    lines 57 and 102); every other first [await] is on [setupContract],
    an [async] function whose promise has settled by the time the
    synchronous segment ends. *)
Definition awaits_wallet (k : Cont) : bool :=
  match k with KCheckAccounts | KConnectAccounts => true | _ => false end.

(** A new task is stopped at the first [await] of a handler: waiting on
    the wallet, or on the settled promise of [setupContract]. *)
Definition fresh_task (eth : option Provider) (t : Task) : Prop :=
  first_await (t_cont t) = true /\
  t_settled t = if awaits_wallet (t_cont t) then None else Some (settle_setup eth).

(** A handler start leaves the state alone and only suspends new tasks. *)
Definition handler_start (h : World -> World) : Prop :=
  forall w,
    w_phase (h w) = w_phase w /\ w_app (h w) = w_app w /\ w_eth (h w) = w_eth w /\
    w_chain (h w) = w_chain w /\ w_listeners (h w) = w_listeners w /\
    exists l, w_tasks (h w) = w_tasks w ++ l /\ Forall (fresh_task (w_eth w)) l.

Lemma handler_start_compose h1 h2 :
  handler_start h1 -> handler_start h2 -> handler_start (fun w => h2 (h1 w)).
Proof.
  intros H1 H2 w. destruct (H1 w) as (?&?&?&?&?&l1&Ht1&Hf1).
  destruct (H2 (h1 w)) as (?&?&?&?&?&l2&Ht2&Hf2).
  split_and!; try congruence. exists (l1 ++ l2). split.
  - by rewrite Ht2, Ht1, app_assoc.
  - apply Forall_app; split; [done|]. congruence.
Qed.

Ltac start_tac :=
  intros w; repeat case_match; simpl; split_and!; try done;
  first [exists []; by rewrite app_nil_r
        | eexists [_]; split; [done|]; repeat constructor].

