(* ===== verification/WalletSession.v ===== *)
(** * WalletSession: connecting the wallet (spec section 4.1)

    [checkIfWalletIsConnected] (src/src/App.jsx lines 40-72) runs at mount
    and asks the provider for the accounts already authorised, without a
    prompt; [connectWallet] (lines 94-114) runs when the "Connect Wallet"
    button is clicked and prompts the user.  Both stop at one [await]; the
    continuation [resume_session] stores the first account, if any.  With
    no provider, the first only logs and the second shows an alert. *)

From S2P Require Import Prelude JsNum Wallet Chain State.

Local Open Scope Z_scope.

(** Lines 40-72. *)
Definition checkIfWalletIsConnected (w : World) : World :=
  match w_eth w with
  | None => w
  | Some _ => spawn KCheckAccounts None w
  end.

(** Lines 94-114. *)
Definition connectWallet (w : World) : World :=
  match w_eth w with
  | None => alert "Get metamask..." w
  | Some _ => spawn KConnectAccounts None w
  end.

(** [result.length !== 0] branch shared by lines 60-66 and 104-110. *)
Definition set_first_account (accs : list account) (w : World) : World :=
  match first_account accs with
  | Some a => set_state (setCurrentAccount a) w
  | None => w
  end.

(** What runs after the [await] of lines 57 and 102: the [try] body stores
    the first account; a rejection is caught and only logged. *)
Definition resume_session (k : Cont) (s : settled) (w : World) : World :=
  match k, s with
  | KCheckAccounts, Fulfilled (VAccounts accs) => set_first_account accs w
  | KConnectAccounts, Fulfilled (VAccounts accs) => set_first_account accs w
  | _, _ => w
  end.

Lemma checkIfWalletIsConnected_start : handler_start checkIfWalletIsConnected.
Proof. unfold checkIfWalletIsConnected, spawn. start_tac. Qed.
Lemma connectWallet_start : handler_start connectWallet.
Proof. unfold connectWallet, spawn, alert. start_tac. Qed.

#[export] Hint Resolve checkIfWalletIsConnected_start connectWallet_start : wave.

(** ** Properties *)

(** C22: without a provider, [connectWallet] (lines 97-100) changes no
    state, starts no request, and shows the "Get metamask..." alert (spec
    P5: [requestConnection] reports the missing provider and never
    mutates the account). *)
Theorem connectWallet_without_provider w :
  w_eth w = None ->
  w_app (connectWallet w) = w_app w /\ w_tasks (connectWallet w) = w_tasks w /\
  w_alerts (connectWallet w) = w_alerts w ++ ["Get metamask..."].
Proof. unfold connectWallet. intros ->. done. Qed.

Lemma connectWallet_without_provider_witness :
  let w := mounted_world None in
  w_eth w = None /\ w_alerts (connectWallet w) = ["Get metamask..."].
Proof.
  cbv zeta. split; [reflexivity|].
  destruct (connectWallet_without_provider (mounted_world None) eq_refl) as (_&_&->).
  reflexivity.
Defined.

(** Without a provider, [checkIfWalletIsConnected] (lines 47-49) returns
    at once: no state change, no request, no alert. *)
Lemma checkIfWalletIsConnected_without_provider w :
  w_eth w = None -> checkIfWalletIsConnected w = w.
Proof. unfold checkIfWalletIsConnected. by intros ->. Qed.

(** C23: when [eth_accounts] or [eth_requestAccounts] resolves with the
    accounts [a :: rest] while mounted, the current account becomes [a]
    (lines 60-63 and 104-107; scenario B); with no account, or on a
    rejection, it is left as it was. *)
Theorem resume_session_account k accs w :
  k = KCheckAccounts \/ k = KConnectAccounts ->
  w_phase w = Mounted ->
  currentAccount (w_app (resume_session k (Fulfilled (VAccounts accs)) w)) =
    match first_account accs with
    | Some a => a
    | None => currentAccount (w_app w)
    end /\
  forall e, resume_session k (Rejected e) w = w.
Proof.
  intros [-> | ->] Hm; (split; [|done]); simpl; unfold set_first_account;
    destruct (first_account accs); [|done| |done];
    rewrite set_state_app, decide_True by done; done.
Qed.

Lemma resume_session_account_witness :
  let w := mounted_world None in
  (KCheckAccounts = KCheckAccounts \/ KCheckAccounts = KConnectAccounts) /\
  w_phase w = Mounted /\
  currentAccount (w_app (resume_session KCheckAccounts (Fulfilled (VAccounts ["0xABC"])) w))
    = "0xABC".
Proof.
  cbv zeta. split; [by left|]. split; [reflexivity|].
  exact (proj1 (resume_session_account KCheckAccounts ["0xABC"] (mounted_world None)
                                       (or_introl eq_refl) eq_refl)).
Defined.
