(* ===== verification/TxLifecycle.v ===== *)
(** * TransactionLifecycle: sending a wave (spec section 4.3)

    [wave] (src/src/App.jsx lines 74-92) has three [await]s: the contract
    binding ([KWaveSetup]), the signed transaction ([KWaveSend]) and its
    confirmation ([KWaveWait]).  [mining], the busy flag that disables the
    button, is set only once the transaction has been sent (line 82) and
    cleared after confirmation (line 84) or in the [catch] (line 90). *)

From S2P Require Import Prelude JsNum Wallet Chain State.

Local Open Scope Z_scope.

(** Lines 74-92, with [value] as rendered when the button was clicked. *)
Definition wave (w : World) : World :=
  match w_eth w with
  | None => w
  | Some _ => spawn (KWaveSetup (value (w_app w))) (Some (settle_setup (w_eth w))) w
  end.

(** [{ gasLimit: 300000 }], line 81. *)
Definition gasLimit : Z := 300000.

(** What runs after each [await] of [wave]: after the binding, send the
    transaction; after sending, [setMining(true)] and wait; after the
    confirmation, or on any exception, [setMining(false)]. *)
Definition resume_wave (k : Cont) (s : settled) (w : World) : World :=
  match k, s with
  | KWaveSetup v, Fulfilled (VBinding _) => spawn (KWaveSend v) None w
  | KWaveSend _, Fulfilled (VTxHandle id) =>
      spawn (KWaveWait id) None (set_state (setMining true) w)
  | _, _ => set_state (setMining false) w
  end.

Lemma wave_start : handler_start wave.
Proof. unfold wave, spawn. start_tac. Qed.

#[export] Hint Resolve wave_start : wave.

(** ** Properties *)

(** C26: on confirmation (lines 83-84) the busy flag is cleared and the log
    is not touched: the new wave is not synthesised locally (spec section
    4.3), it arrives through [NewWave] or a later fetch. *)
Theorem wave_confirmed_leaves_log id w :
  mining (w_app (resume_wave (KWaveWait id) (Fulfilled VReceipt) w)) =
    (if decide (w_phase w = Mounted) then false else mining (w_app w)) /\
  allWaves (w_app (resume_wave (KWaveWait id) (Fulfilled VReceipt) w)) = allWaves (w_app w).
Proof. simpl. rewrite set_state_app. by case_decide. Qed.
