(* ===== verification/WaveLog.v ===== *)
(** * WaveLog: the list of waves (spec section 4.4)

    [getAllWaves] (src/src/App.jsx lines 116-151) fetches every wave and
    replaces [allWaves] with their cleaned records; the subscription effect
    (lines 165-190) registers [onNewWave] (lines 168-178), which appends one
    record per [NewWave] event.  [resume_log] is what runs after their
    [await]s.

    The spec describes the log by [seed(records)] and
    [appendFromEvent(address, message, timestamp)]: [WaveLogOps] and
    [WaveLogLaws] state that contract as a class, and [AppState] is an
    instance, with [setAllWaves] as [seed] and the functional update of
    [onNewWave] as [appendFromEvent].  The file [LogProperties] proves that
    the component's transitions refine it.  [wave_of_record] is the
    inverse of the record construction, for the round trip. *)

From S2P Require Import Prelude JsNum Wallet Chain State.

Local Open Scope Z_scope.

(** The record pushed for each wave of [getAllWaves] (lines 134-138). *)
Definition clean_wave (wv : Contract.Wave) : WaveRecord :=
  {| address := Contract.waver wv;
     timestamp := date_of_timestamp (Contract.timestamp wv);
     message := Contract.message wv |}.

(** [let wavesCleaned = []; waves.forEach(wave => wavesCleaned.push(...))]
    (lines 132-139). *)
Definition clean_waves (ws : list Contract.Wave) : list WaveRecord :=
  fold_left (fun acc wv => acc ++ [clean_wave wv]) ws [].

(** The record appended by [onNewWave(from, message, timestamp)]
    (lines 172-176). *)
Definition new_wave_record (from : account) (msg : string) (ts : Z) : WaveRecord :=
  {| address := from; timestamp := date_of_timestamp ts; message := msg |}.

(** [prevState => [...prevState, record]] (lines 170-177). *)
Definition append_wave (r : WaveRecord) (s : AppState) : AppState :=
  setAllWaves (allWaves s ++ [r]) s.

(** Lines 116-151. *)
Definition getAllWaves (w : World) : World :=
  match w_eth w with
  | None => w
  | Some _ => spawn KAllSetup (Some (settle_setup (w_eth w))) w
  end.

(** The subscription effect, lines 165-183. *)
Definition subscribe_effect (w : World) : World :=
  match w_eth w with
  | None => w
  | Some _ => spawn KSubscribeSetup (Some (settle_setup (w_eth w))) w
  end.

(** [onNewWave(from, message, timestamp)], lines 168-178. *)
Definition onNewWave (from : account) (msg : string) (ts : Z) (w : World) : World :=
  set_state (append_wave (new_wave_record from msg ts)) w.

(** [wavePortalContract.on("NewWave", onNewWave)], line 182: the provider
    delivers the events of the waves mined from now on. *)
Definition register_listener (w : World) : World :=
  set_listeners (w_listeners w ++ [mkListener (length (Contract.ch_waves (w_chain w)))]) w.

(** What runs after the [await]s of lines 120, 125 and 181. *)
Definition resume_log (k : Cont) (s : settled) (w : World) : World :=
  match k, s with
  | KAllSetup, Fulfilled (VBinding _) => spawn KAllFetch None w
  | KAllFetch, Fulfilled (VWaves ws) => set_state (setAllWaves (clean_waves ws)) w
  | KSubscribeSetup, Fulfilled (VBinding _) => register_listener w
  | _, _ => w
  end.

Lemma getAllWaves_start : handler_start getAllWaves.
Proof. unfold getAllWaves, spawn. start_tac. Qed.
Lemma subscribe_effect_start : handler_start subscribe_effect.
Proof. unfold subscribe_effect, spawn. start_tac. Qed.

#[export] Hint Resolve getAllWaves_start subscribe_effect_start : wave.

(** ** The log contract *)

Class WaveLogOps (L : Type) := {
  log_view : L -> list WaveRecord;
  seed : list WaveRecord -> L -> L;
  appendFromEvent : account -> string -> Z -> L -> L;
}.

Class WaveLogLaws (L : Type) `{WaveLogOps L} := {
  seed_view rs l : log_view (seed rs l) = rs;
  append_view a m t l :
    log_view (appendFromEvent a m t l) = log_view l ++ [new_wave_record a m t];
}.

#[export] Instance AppState_log_ops : WaveLogOps AppState := {
  log_view := allWaves;
  seed := setAllWaves;
  appendFromEvent a m t := append_wave (new_wave_record a m t);
}.

#[export] Instance AppState_log_laws : WaveLogLaws AppState.
Proof. split; done. Qed.

(** ** Records *)

Lemma clean_waves_acc ws acc :
  fold_left (fun acc wv => acc ++ [clean_wave wv]) ws acc = acc ++ map clean_wave ws.
Proof.
  revert acc; induction ws as [|wv ws IH]; intros acc; simpl.
  - by rewrite app_nil_r.
  - by rewrite IH, <- app_assoc.
Qed.

(** The [forEach]/[push] loop of [getAllWaves] (lines 132-139) builds the
    cleaned records in the order of the fetched waves: it is [map]. *)
Lemma clean_waves_map ws : clean_waves ws = map clean_wave ws.
Proof. unfold clean_waves. by rewrite clean_waves_acc. Qed.

(** The event path and the fetch path build the same record. *)
Lemma new_wave_record_clean wv :
  new_wave_record (Contract.waver wv) (Contract.message wv) (Contract.timestamp wv) =
  clean_wave wv.
Proof. done. Qed.

#[export] Hint Rewrite clean_waves_map new_wave_record_clean : wave_simpl.

(** C11: the two paths that build records agree: the [forEach]/[push] loop
    of [getAllWaves] (lines 132-139) gives, for a list of waves, exactly
    the records [onNewWave] (lines 172-176) would append for their events,
    in the same order. *)
Theorem record_paths_agree ws :
  clean_waves ws =
  map (fun wv => new_wave_record (Contract.waver wv) (Contract.message wv) (Contract.timestamp wv)) ws.
Proof. rewrite clean_waves_map. apply map_ext. intros wv. by rewrite new_wave_record_clean. Qed.

(** ** Records and waves *)

(** Reading a wave back from a record: the inverse of [clean_wave] on the
    records it builds (a valid date, a whole number of seconds). *)
Definition wave_of_record (r : WaveRecord) : option Contract.Wave :=
  match timestamp r with
  | DateValid ms =>
      if (0 <=? ms) && (ms <=? max_time_value) && (ms mod 1000 =? 0)
      then Some (Contract.mkWave (address r) (ms / 1000) (message r))
      else None
  | DateInvalid => None
  end.

(** C9: the record that [getAllWaves] (lines 134-138) and [onNewWave]
    (lines 172-176) build from a wave loses nothing: for every timestamp
    a [Date] can hold, the wave is read back from its record, and every
    record that reads back as a wave is the record of that wave.  So two
    waves give the same record exactly when they are the same wave, the
    identity the spec's deduplication rule (section 2) relies on. *)
Theorem clean_wave_roundtrip wv r :
  (0 <= Contract.timestamp wv <= 8640000000000 -> wave_of_record (clean_wave wv) = Some wv) /\
  (wave_of_record r = Some wv -> clean_wave wv = r).
Proof.
  split.
  - intros Hts. unfold wave_of_record, clean_wave. simpl.
    rewrite date_of_timestamp_ms by done. unfold max_time_value.
    rewrite Z_mod_mult, Z.div_mul by lia.
    replace ((0 <=? _) && _ && _) with true by (symmetry; rewrite !andb_true_iff, !Z.leb_le; lia).
    by destruct wv.
  - unfold wave_of_record. destruct r as [a [ms|] m]; simpl; [|done].
    destruct ((0 <=? ms) && (ms <=? max_time_value) && (ms mod 1000 =? 0)) eqn:Hc; [|done].
    intros [= <-]. rewrite !andb_true_iff, !Z.leb_le, Z.eqb_eq in Hc.
    unfold clean_wave; simpl. unfold max_time_value in Hc.
    rewrite date_of_timestamp_ms by (split; [apply Z.div_pos|apply Z.div_le_upper_bound]; lia).
    do 2 f_equal. pose proof (Z.div_mod ms 1000). lia.
Qed.

Lemma clean_wave_roundtrip_witness :
  (0 <= Contract.timestamp (Contract.mkWave "0xDEF" 1690000000 "hi") <= 8640000000000) /\
  wave_of_record (clean_wave (Contract.mkWave "0xDEF" 1690000000 "hi")) = Some (Contract.mkWave "0xDEF" 1690000000 "hi").
Proof.
  assert (H : 0 <= Contract.timestamp (Contract.mkWave "0xDEF" 1690000000 "hi") <= 8640000000000) by (simpl; lia).
  split; [exact H|]. exact (proj1 (clean_wave_roundtrip (Contract.mkWave "0xDEF" 1690000000 "hi") (clean_wave (Contract.mkWave "0xDEF" 1690000000 "hi"))) H).
Defined.

(** ** Seed and append *)

(** C1: when the fetch of [getAllWaves] resumes with waves [ws] while the
    component is mounted, [allWaves] becomes exactly their cleaned records,
    in order, whatever it held before (line 144), [ws = []] included;
    after unmount the update is ignored. *)
Theorem getAllWaves_seeds ws w :
  allWaves (w_app (resume_log KAllFetch (Fulfilled (VWaves ws)) w)) =
  if decide (w_phase w = Mounted) then map clean_wave ws else allWaves (w_app w).
Proof. simpl. rewrite set_state_app, clean_waves_map. by case_decide. Qed.

(** C2: [onNewWave(from, message, timestamp)] appends exactly one record,
    built from the event, after the unchanged previous records while the
    component is mounted; afterwards the update is ignored. *)
Theorem onNewWave_appends from msg ts w :
  allWaves (w_app (onNewWave from msg ts w)) =
  if decide (w_phase w = Mounted)
  then allWaves (w_app w) ++ [new_wave_record from msg ts]
  else allWaves (w_app w).
Proof. unfold onNewWave. rewrite set_state_app. by case_decide. Qed.
