(* ===== verification/WaveCount.v ===== *)
(** * WaveCount: [getWaveCount] (src/src/App.jsx lines 26-38)

    [getWaveCount] sets [fetchingWaveLength], builds the binding without
    checking for a provider, reads [getTotalWaves()] and stores
    [Number(count)].  Nothing in the component calls it (its output in the
    render is commented out, lines 227-237), so no event of [Semantics]
    starts it; its behaviour is still modelled and proved here. *)

From S2P Require Import Prelude JsNum Wallet Chain State.

Local Open Scope Z_scope.

(** Lines 26-38: no provider check; [setupContract] resolves to
    [undefined] without one. *)
Definition getWaveCount (w : World) : World :=
  spawn KCountSetup (Some (settle_setup (w_eth w)))
        (set_state (setFetchingWaveLength true) w).

(** What runs after the [await]s of lines 29 and 31: a binding that is
    [undefined] throws a [TypeError], caught at line 34. *)
Definition resume_count (k : Cont) (s : settled) (w : World) : World :=
  match k, s with
  | KCountSetup, Fulfilled (VBinding _) => spawn KCountFetch None w
  | KCountFetch, Fulfilled (VCount n) =>
      set_state (setWave (Number n)) (set_state (setFetchingWaveLength false) w)
  | _, _ => set_state (setFetchingWaveLength false) w
  end.

(** The handler once both [await]s have resumed: [s1] is what
    [setupContract] resolved to, [o] the outcome of [getTotalWaves()],
    which is not reached when the binding is [undefined]. *)
Definition count_after (s1 o : settled) (w : World) : World :=
  match s1 with
  | Fulfilled (VBinding _) => resume_count KCountFetch o (resume_count KCountSetup s1 w)
  | _ => resume_count KCountSetup s1 w
  end.

Lemma resume_count_phase k s w : w_phase (resume_count k s w) = w_phase w.
Proof. destruct k, s as [[]|]; simpl; by rewrite ?set_state_phase. Qed.

Lemma count_fetch_done o w :
  w_phase w = Mounted ->
  fetchingWaveLength (w_app (resume_count KCountFetch o w)) = false /\
  forall n, o = Fulfilled (VCount n) -> waves (w_app (resume_count KCountFetch o w)) = Number n.
Proof.
  intros Hm. destruct o as [[]|]; simpl;
    rewrite ?set_state_app, ?set_state_phase, ?decide_True by done; simpl;
    (split; [done|]); intros m [=]; by subst.
Qed.

(** C29: [getWaveCount] raises [fetchingWaveLength] (line 28) and, whatever
    [setupContract] and [getTotalWaves()] return or throw, the flag is down
    again when the handler ends (lines 32 and 36); on success [waves] holds
    [Number(count)] (line 33). *)
Theorem getWaveCount_resets_flag s1 o w :
  w_phase w = Mounted ->
  fetchingWaveLength (w_app (getWaveCount w)) = true /\
  fetchingWaveLength (w_app (count_after s1 o (getWaveCount w))) = false /\
  forall b n, s1 = Fulfilled (VBinding b) -> o = Fulfilled (VCount n) ->
    waves (w_app (count_after s1 o (getWaveCount w))) = Number n.
Proof.
  intros Hm.
  assert (Hp : w_phase (getWaveCount w) = Mounted).
  { unfold getWaveCount, spawn. simpl. by rewrite set_state_phase. }
  split; [unfold getWaveCount, spawn; simpl; by rewrite set_state_app, decide_True|].
  unfold count_after. destruct s1 as [[]|];
    try (split; [simpl; by rewrite set_state_app, decide_True | by intros ? ? [=]]).
  destruct (count_fetch_done o (resume_count KCountSetup (Fulfilled (VBinding b))
                                             (getWaveCount w))) as [H1 H2];
    [by rewrite resume_count_phase|].
  split; [done|]. intros ? n _ ->. by apply H2.
Qed.

Lemma getWaveCount_resets_flag_witness :
  w_phase (mounted_world None) = Mounted /\
  fetchingWaveLength (w_app (count_after (Fulfilled VUndefined) (Fulfilled (VCount 3))
                               (getWaveCount (mounted_world None)))) = false.
Proof.
  split; [reflexivity|].
  exact (proj1 (proj2 (getWaveCount_resets_flag (Fulfilled VUndefined) (Fulfilled (VCount 3))
                                                 (mounted_world None) eq_refl))).
Defined.
