(* ===== verification/Semantics.v ===== *)
(** * Semantics: the component in its environment

    [resume] dispatches a settled [await] to the continuation of the
    handler it belongs to.  [settle] is the environment answering an
    [await]: the wallet returns accounts or prompts the user, the signer
    sends a transaction, the node answers a read, a receipt confirms a
    transaction; any call to the wallet or the node may also fail.
    [mount] runs the two effects in order; [unmount] calls what they
    returned if it is a function.  [render] is what the page shows: the
    texts, the textarea, the buttons the user can click and the entries.
    [step] has one rule per kind of event; [exec] is its interpreter
    ([exec_sound], [exec_complete]); [steps] is a run labelled by its
    events, and [click_wave_run] the run from a click on "Wave at Me" to
    the transaction it sends; [reachable] is [rtc] of [step] from a page
    load.  [resume_terminates] shows that every handler terminates.  The
    remaining lemmas are the footprints every invariant proof uses, and
    the two induction principles [tasks_inv_step] (a property of each
    pending task) and
    [reachable_invariant] (a property of the world). *)

From S2P Require Import Prelude JsNum Wallet Chain State WalletSession TxLifecycle WaveLog WaveCount.

Local Open Scope Z_scope.

(** [handleValue], lines 153-155: the textarea's [onChange]. *)
Definition handleValue (s : string) (w : World) : World :=
  set_state (setValue s) w.

(** ** Resuming a handler after its [await] settled *)

Definition resume (k : Cont) (s : settled) (w : World) : World :=
  match k with
  | KCheckAccounts | KConnectAccounts => resume_session k s w
  | KWaveSetup _ | KWaveSend _ | KWaveWait _ => resume_wave k s w
  | KAllSetup | KAllFetch | KSubscribeSetup => resume_log k s w
  | KCountSetup | KCountFetch => resume_count k s w
  end.

(** What the [catch] of each handler does with an exception: clear the
    loading flag (line 36), clear the busy flag (line 90), or only log
    (lines 70, 112, 149).  The subscription effect has no [try] (lines
    180-183): its rejection is unhandled and changes nothing. *)
Definition catch_block (k : Cont) : option (AppState -> AppState) :=
  match k with
  | KCountSetup | KCountFetch => Some (setFetchingWaveLength false)
  | KWaveSetup _ | KWaveSend _ | KWaveWait _ => Some (setMining false)
  | KCheckAccounts | KConnectAccounts | KAllSetup | KAllFetch | KSubscribeSetup => None
  end.

(** ** The wallet and the chain settle a pending [await] *)

(** The environment's choice: the call succeeds, or fails with [e]
    (the user declines, the network fails, ...). *)
Inductive answer := AnsOk | AnsErr (e : js_error).

Definition settle (w : World) (k : Cont) (a : answer) : option (World * settled) :=
  match w_eth w with
  | None => None
  | Some p =>
      match k, a with
      | KCheckAccounts, AnsOk => Some (w, Fulfilled (VAccounts (eth_accounts p)))
      | KConnectAccounts, AnsOk =>
          Some (set_eth (Some (approve_accounts p)) w,
                Fulfilled (VAccounts (eth_accounts (approve_accounts p))))
      | KWaveSend v, AnsOk =>
          match send_wave p (w_chain w) v gasLimit with
          | Ok (id, c) => Some (set_chain c w, Fulfilled (VTxHandle id))
          | Err e => Some (w, Rejected e)
          end
      | KWaveWait id, AnsOk =>
          match wait_receipt (w_chain w) id with
          | Some (Ok _) => Some (w, Fulfilled VReceipt)
          | Some (Err e) => Some (w, Rejected e)
          | None => None
          end
      | KAllFetch, AnsOk =>
          match call_getAllWaves p (w_chain w) with
          | Ok ws => Some (w, Fulfilled (VWaves ws))
          | Err e => Some (w, Rejected e)
          end
      | KCountFetch, AnsOk =>
          match call_getTotalWaves p (w_chain w) with
          | Ok n => Some (w, Fulfilled (VCount n))
          | Err e => Some (w, Rejected e)
          end
      | (KCheckAccounts | KConnectAccounts | KWaveSend _ | KWaveWait _ | KAllFetch
        | KCountFetch), AnsErr e => Some (w, Rejected e)
      | _, _ => None
      end
  end.

(** ** The component against any contract client *)

(** [settle] answers the reads and the send of the component exactly as
    any client satisfying the laws of spec section 4.2 would, whatever
    binding it was given: the component depends on the contract client
    only through [ContractClientLaws]. *)
Section AgainstClient.
Context `{ContractClientLaws B} (b : B).

Lemma settle_reads_client w p :
  w_eth w = Some p ->
  settle w KAllFetch AnsOk =
    Some (w, match client_fetchAllWaves b p (w_chain w) with
             | Ok ws => Fulfilled (VWaves ws) | Err e => Rejected e end) /\
  settle w KCountFetch AnsOk =
    Some (w, match client_totalWaveCount b p (w_chain w) with
             | Ok n => Fulfilled (VCount n) | Err e => Rejected e end).
Proof.
  intros Hp. rewrite fetch_signed, count_signed. unfold settle, call_getAllWaves, call_getTotalWaves.
  rewrite Hp. by destruct (signer_address p).
Qed.

Lemma settle_send_client w p v :
  w_eth w = Some p ->
  settle w (KWaveSend v) AnsOk =
    match client_submitWave b p (w_chain w) v gasLimit with
    | Ok (id, c) => Some (set_chain c w, Fulfilled (VTxHandle id))
    | Err e => Some (w, Rejected e)
    end.
Proof.
  intros Hp. rewrite submit_signed. unfold settle, send_wave. rewrite Hp.
  by destruct (signer_address p).
Qed.
End AgainstClient.

(** ** Mounting and unmounting *)

(** What an effect function returned, which React calls on unmount if it
    is a function. *)
Inductive effect_return :=
| ReturnsUndefined
| ReturnsPromise
| ReturnsCleanup (f : World -> World).

(** The first effect (lines 157-160) has a block body and no [return]. *)
Definition effect1_return : effect_return := ReturnsUndefined.
(** The second effect (line 165) is an [async] arrow: it returns a
    Promise, and its cleanup closure (lines 185-189) only resolves it. *)
Definition effect2_return : effect_return := ReturnsPromise.

Definition run_destroy (r : effect_return) (w : World) : World :=
  match r with
  | ReturnsCleanup f => f w
  | _ => w
  end.

(** Commit of the first render: both effects run, in order. *)
Definition mount (w : World) : World :=
  subscribe_effect (getAllWaves (checkIfWalletIsConnected (set_phase Mounted w))).

Definition unmount (w : World) : World :=
  run_destroy effect2_return (run_destroy effect1_return (set_phase Unmounted w)).

(** ** The render (lines 192-249)

    The texts of the header and the bio (lines 196-202), the textarea
    showing [value] (lines 204-206), the wave button, its label and
    whether it is disabled (lines 215-217), whether the connect button is
    rendered (lines 220-225), and the list of waves in order (lines
    239-246).  Class names and styles are not modelled. *)

(** One entry of [allWaves.map((wave, index) => ...)] (lines 239-246):
    [key={index}], the address, the date (shown with [toString()], whose
    time-zone formatting is not modelled) and the message. *)
Record Entry := mkEntry {
  e_key : nat;
  e_address : account;
  e_time : js_date;
  e_message : string;
}.

Definition render_entries (ws : list WaveRecord) : list Entry :=
  imap (fun i r => mkEntry i (address r) (timestamp r) (message r)) ws.

Record View := mkView {
  v_header : string;
  v_bio : string;
  v_textarea : string;
  v_wave_disabled : bool;
  v_wave_label : string;
  v_connect_button : bool;
  v_entries : list Entry;
}.

Definition render (s : AppState) : View :=
  {| v_header := "👋 Hello World! 👋🏼";
     v_bio := "I am Jude, a javascript developer learning how to build products that will run on the blockchain";
     v_textarea := value s;
     v_wave_disabled := mining s;
     v_wave_label := if mining s then "Registering wave..." else "Wave at Me";
     v_connect_button := negb (js_truthy_string (currentAccount s));
     v_entries := render_entries (allWaves s) |}.

(** ** Events and the interleaving semantics *)

Inductive event :=
| EvMount                      (* React commits the first render *)
| EvUnmount                    (* React removes the component *)
| EvType (s : string)          (* textarea onChange, [handleValue] lines 153-155 *)
| EvClickWave                  (* "Wave at Me", line 215 *)
| EvClickConnect               (* "Connect Wallet", lines 220-225 *)
| EvSettle (i : nat) (a : answer)  (* the promise of task [i] settles *)
| EvResume (i : nat)           (* the event loop resumes task [i] *)
| EvMine (id : nat) (ts : Z) (ok : bool)  (* a block includes transaction [id] *)
| EvDeliver (j : nat)          (* the provider delivers a NewWave to listener [j] *)
| EvSwitchAccounts (accs : list account)  (* the user changes accounts in the wallet *)
| EvForeignWave (from : account) (msg : string).  (* another client sends [wave(msg)] *)

Definition deliver_to (j : nat) (l : Listener) (wv : Contract.Wave) (w : World) : World :=
  onNewWave (Contract.waver wv) (Contract.message wv) (Contract.timestamp wv)
            (set_listeners (<[j := mkListener (S (l_cursor l))]> (w_listeners w)) w).

(** The rules.  A button's [onClick] fires only when the button is
    rendered and enabled: "Wave at Me" is [disabled={mining}] (line 215),
    "Connect Wallet" is rendered only when [!currentAccount] (line 221). *)
Inductive step : World -> event -> World -> Prop :=
| st_mount w :
    w_phase w = NotMounted -> step w EvMount (mount w)
| st_unmount w :
    w_phase w = Mounted -> step w EvUnmount (unmount w)
| st_type w s :
    w_phase w = Mounted -> step w (EvType s) (handleValue s w)
| st_click_wave w :
    w_phase w = Mounted -> v_wave_disabled (render (w_app w)) = false ->
    step w EvClickWave (wave w)
| st_click_connect w :
    w_phase w = Mounted -> v_connect_button (render (w_app w)) = true ->
    step w EvClickConnect (connectWallet w)
| st_settle w i k a w' s :
    w_tasks w !! i = Some (mkTask k None) -> settle w k a = Some (w', s) ->
    step w (EvSettle i a) (set_tasks (<[i := mkTask k (Some s)]> (w_tasks w)) w')
| st_resume w i k s :
    w_tasks w !! i = Some (mkTask k (Some s)) ->
    step w (EvResume i) (resume k s (set_tasks (delete i (w_tasks w)) w))
| st_mine w id ts ok c :
    0 <= ts <= Contract.uint256_max -> Contract.mine (w_chain w) id ts ok = Some c ->
    step w (EvMine id ts ok) (set_chain c w)
| st_deliver w j l wv :
    w_listeners w !! j = Some l -> Contract.ch_waves (w_chain w) !! l_cursor l = Some wv ->
    step w (EvDeliver j) (deliver_to j l wv w)
| st_switch w p accs :
    w_eth w = Some p -> step w (EvSwitchAccounts accs) (set_eth (Some (switch_accounts p accs)) w)
| st_foreign w from msg :
    step w (EvForeignWave from msg) (set_chain (Contract.submit (w_chain w) from msg gasLimit).2 w).

(** The interpreter of [step]. *)
Definition exec (w : World) (e : event) : option World :=
  match e with
  | EvMount => if decide (w_phase w = NotMounted) then Some (mount w) else None
  | EvUnmount => if decide (w_phase w = Mounted) then Some (unmount w) else None
  | EvType s => if decide (w_phase w = Mounted) then Some (handleValue s w) else None
  | EvClickWave =>
      if decide (w_phase w = Mounted) then
        if v_wave_disabled (render (w_app w)) then None else Some (wave w)
      else None
  | EvClickConnect =>
      if decide (w_phase w = Mounted) then
        if v_connect_button (render (w_app w)) then Some (connectWallet w) else None
      else None
  | EvSettle i a =>
      match w_tasks w !! i with
      | Some (mkTask k None) =>
          match settle w k a with
          | Some (w', s) => Some (set_tasks (<[i := mkTask k (Some s)]> (w_tasks w)) w')
          | None => None
          end
      | _ => None
      end
  | EvResume i =>
      match w_tasks w !! i with
      | Some (mkTask k (Some s)) => Some (resume k s (set_tasks (delete i (w_tasks w)) w))
      | _ => None
      end
  | EvMine id ts ok =>
      if decide (0 <= ts <= Contract.uint256_max) then
        match Contract.mine (w_chain w) id ts ok with
        | Some c => Some (set_chain c w)
        | None => None
        end
      else None
  | EvDeliver j =>
      match w_listeners w !! j with
      | Some l =>
          match Contract.ch_waves (w_chain w) !! l_cursor l with
          | Some wv => Some (deliver_to j l wv w)
          | None => None
          end
      | None => None
      end
  | EvSwitchAccounts accs =>
      match w_eth w with
      | Some p => Some (set_eth (Some (switch_accounts p accs)) w)
      | None => None
      end
  | EvForeignWave from msg => Some (set_chain (Contract.submit (w_chain w) from msg gasLimit).2 w)
  end.

Definition any_step (w w' : World) : Prop := exists e, step w e w'.

Notation "w --[ e ]--> w'" := (step w e w')
  (at level 70, e at level 200, format "w  --[ e ]-->  w'") : wave_scope.
Notation "w -->* w'" := (rtc any_step w w') (at level 70) : wave_scope.
Local Open Scope wave_scope.

(** Worlds the component can reach from a page load with wallet [eth]
    and a chain holding the waves [history]. *)
Definition reachable_from (eth : option Provider) (history : list Contract.Wave) (w : World) : Prop :=
  rtc any_step (init eth history) w.

(** Extend a run by one event whose side conditions hold by computation,
    for runs over a symbolic wallet or history where [vm_compute] of the
    interpreter does not apply. *)
Ltac take_step e := eapply rtc_l; [exists e; econstructor; reflexivity|].

Definition reachable (w : World) : Prop :=
  exists eth history, reachable_from eth history w.

(** A run labelled by its events, the way a trace is a chain of steps:
    [w --[ evs ]-->* w']. *)
Fixpoint steps (w : World) (evs : list event) (w' : World) : Prop :=
  match evs with
  | [] => w = w'
  | e :: evs' => exists w1, step w e w1 /\ steps w1 evs' w'
  end.

Notation "w --[ evs ]-->* w'" := (steps w evs w')
  (at level 70, evs at level 200, format "w  --[ evs ]-->*  w'") : wave_scope.

Lemma steps_app w evs1 evs2 w' :
  w --[ evs1 ++ evs2 ]-->* w' <-> exists w1, w --[ evs1 ]-->* w1 /\ w1 --[ evs2 ]-->* w'.
Proof.
  revert w. induction evs1 as [|e evs1 IH]; intros w; simpl.
  - split; [eauto|]. by intros (? & -> & ?).
  - split.
    + intros (w1 & Hs & Hr). apply IH in Hr as (w2 & H1 & H2). eauto.
    + intros (w2 & (w1 & Hs & H1) & H2). exists w1. split; [done|]. apply IH. eauto.
Qed.

(** ** The interpreter is the semantics *)

Lemma exec_sound w e w' : exec w e = Some w' -> step w e w'.
Proof.
  destruct e; simpl; intros H; repeat (case_match || case_decide); simplify_eq;
    econstructor; eauto.
Qed.

Lemma exec_complete w e w' : step w e w' -> exec w e = Some w'.
Proof.
  intros Hs; destruct Hs; simpl in *;
    repeat match goal with H : _ = _ |- _ => rewrite H end;
    repeat case_decide; simpl; try done; try lia.
Qed.

Lemma run_steps w evs w' : run exec w evs = Some w' -> w --[ evs ]-->* w'.
Proof.
  revert w. induction evs as [|e evs IH]; intros w; simpl; [by intros [= ->]|].
  destruct (exec w e) as [w1|] eqn:He; [|done]. intros Hr.
  exists w1. split; [by apply exec_sound|by apply IH].
Qed.

(** ** The click on "Wave at Me", from the click to the transaction *)

(** The four steps of [wave] (lines 74-87) when the wallet answers: the
    click starts the handler, which resumes with the binding (line 79),
    the signer sends [wave(value)] (line 81), and the handler resumes with
    the transaction, sets [mining] and awaits the receipt (lines 82-83). *)
Lemma click_wave_run w p a :
  w_phase w = Mounted -> w_eth w = Some p -> signer_address p = Some a ->
  mining (w_app w) = false ->
  w --[ [EvClickWave; EvResume (length (w_tasks w)); EvSettle (length (w_tasks w)) AnsOk;
         EvResume (length (w_tasks w))] ]-->*
    spawn (KWaveWait (Contract.submit (w_chain w) a (value (w_app w)) gasLimit).1) None
      (set_state (setMining true)
         (set_chain (Contract.submit (w_chain w) a (value (w_app w)) gasLimit).2 w)).
Proof.
  intros Hm Hp Ha Hmin.
  eexists; split; [apply st_click_wave; [done|exact Hmin]|].
  eexists; split; [apply st_resume; unfold wave; rewrite Hp; apply lookup_snoc_length|].
  unfold wave, spawn at 2. rewrite Hp. simpl. rewrite delete_snoc_length.
  eexists; split.
  { apply st_settle; [apply lookup_snoc_length|]. unfold settle, send_wave. simpl. by rewrite Hp, Ha. }
  eexists; split; [apply st_resume; simpl; rewrite insert_snoc_length; apply lookup_snoc_length|].
  simpl. rewrite insert_snoc_length, delete_snoc_length.
  destruct w; simpl in *; subst; reflexivity.
Qed.

(** Case analysis on a continuation and the value it resumes with. *)
Ltac resume_cases k s :=
  destruct k; destruct s as [[]|]; simpl;
  unfold resume_session, resume_wave, resume_log, resume_count, register_listener, set_first_account;
  repeat case_match; simpl; autorewrite with wave_simpl; simpl.

(** A task list cannot equal itself with one more task: closes the
    cases of [resume_cases] that do not spawn the task sought. *)
Ltac snoc_contra H :=
  first [ apply app_inv_head in H; simplify_eq; eauto
        | apply (f_equal length) in H; rewrite length_app in H; simpl in H; lia ].

(** C27: when the awaited call of any handler rejects, the handler runs its
    [catch] and ends: the world changes only by the [catch]'s state
    update, no request is sent, no task is left and no listener is
    registered; the account and the log are never touched (spec section 7:
    errors are absorbed, the busy flag is cleared). *)
Theorem resume_rejected k e w :
  resume k (Rejected e) w =
  match catch_block k with Some f => set_state f w | None => w end.
Proof. by destruct k. Qed.

(** C12: a [NewWave] event delivered while mounted adds one entry at the
    end of the rendered list and keeps every entry already shown with its
    React [key] (the index, line 241), so React keeps their elements; the
    new entry's key is the old length. *)
Theorem onNewWave_keeps_entries from msg ts w :
  w_phase w = Mounted ->
  v_entries (render (w_app (onNewWave from msg ts w))) =
  v_entries (render (w_app w)) ++
    [mkEntry (length (allWaves (w_app w))) from (date_of_timestamp ts) msg].
Proof.
  intros Hm. unfold onNewWave. rewrite set_state_app, decide_True by done. simpl.
  unfold render_entries. rewrite imap_app. simpl. by rewrite Nat.add_0_r.
Qed.

Lemma onNewWave_keeps_entries_witness :
  w_phase (mounted_world None) = Mounted /\
  v_entries (render (w_app (onNewWave "0xDEF" "hi" 1690000000 (mounted_world None)))) =
    [mkEntry 0 "0xDEF" (DateValid 1690000000000) "hi"].
Proof.
  assert (Hm : w_phase (mounted_world None) = Mounted) by reflexivity.
  split; [exact Hm|].
  rewrite (onNewWave_keeps_entries "0xDEF" "hi" 1690000000 (mounted_world None) Hm).
  vm_compute. reflexivity.
Defined.

(** C25: the textarea is a controlled input and what the user types is
    what is sent: typing [s] ([handleValue], lines 153-155) makes the
    textarea show [s] ([value={value}], line 205); the next click on "Wave
    at Me" and the wallet's answers then run [wave] (lines 74-87) to the
    send of line 81: the client's transaction [wave(s)], from the signer's
    account and with the gas limit of line 81, enters the mempool under
    the next id, the handler awaits its receipt, and the button is
    disabled.  [s] is sent as it is, the empty string included: the
    client does no validation of its own (spec section 4.2 leaves the
    acceptance of an empty message to the contract). *)
Theorem typed_text_sent w p a s :
  w_phase w = Mounted -> w_eth w = Some p -> signer_address p = Some a ->
  mining (w_app w) = false ->
  exists w1 w',
    w --[ EvType s ]--> w1 /\ v_textarea (render (w_app w1)) = s /\
    w1 --[ [EvClickWave; EvResume (length (w_tasks w)); EvSettle (length (w_tasks w)) AnsOk;
            EvResume (length (w_tasks w))] ]-->* w' /\
    Contract.ch_mempool (w_chain w') =
      Contract.ch_mempool (w_chain w) ++
        [Contract.mkTx (Contract.ch_next_tx (w_chain w)) a s gasLimit] /\
    w_tasks w' = w_tasks w ++ [mkTask (KWaveWait (Contract.ch_next_tx (w_chain w))) None] /\
    v_wave_disabled (render (w_app w')) = true.
Proof.
  intros Hm Hp Ha Hmin.
  assert (Hm1 : w_phase (handleValue s w) = Mounted) by (unfold handleValue; by rewrite set_state_phase).
  assert (Happ : w_app (handleValue s w) = setValue s (w_app w))
    by (unfold handleValue; by rewrite set_state_app, decide_True).
  assert (He : w_eth (handleValue s w) = Some p) by (unfold handleValue; by rewrite set_state_eth).
  assert (Ht : w_tasks (handleValue s w) = w_tasks w) by apply set_state_tasks.
  assert (Hc : w_chain (handleValue s w) = w_chain w) by apply set_state_chain.
  pose proof (click_wave_run (handleValue s w) p a Hm1 He Ha ltac:(by rewrite Happ)) as Hrun.
  rewrite Ht, Hc, Happ in Hrun. change (value (setValue s (w_app w))) with s in Hrun.
  eexists _, _. split; [by apply st_type|]. split; [by rewrite Happ|]. split; [exact Hrun|].
  unfold spawn. simpl. rewrite set_state_chain, set_state_tasks, set_state_app. simpl.
  rewrite Hm1, decide_True by done. split_and!; [done|by rewrite Ht|done].
Qed.

Lemma typed_text_sent_witness :
  exists w', mounted_world (Some (mkProvider ["0xABC"] ["0xABC"]))
    --[ [EvType "hi"; EvClickWave; EvResume 0; EvSettle 0 AnsOk; EvResume 0] ]-->* w' /\
    Contract.ch_mempool (w_chain w') = [Contract.mkTx 0 "0xABC" "hi" gasLimit].
Proof.
  destruct (typed_text_sent (mounted_world (Some (mkProvider ["0xABC"] ["0xABC"])))
              (mkProvider ["0xABC"] ["0xABC"]) "0xABC" "hi" eq_refl eq_refl eq_refl eq_refl)
    as (w1 & w' & H1 & _ & H2 & H3 & _).
  exists w'. split; [exists w1; split; [exact H1|exact H2]|]. rewrite H3. reflexivity.
Defined.

Section ResumeFootprint.
  Implicit Types (w : World) (k : Cont) (s : settled).

Lemma resume_phase k s w : w_phase (resume k s w) = w_phase w.
  Proof. resume_cases k s; done. Qed.
Lemma resume_eth k s w : w_eth (resume k s w) = w_eth w.
  Proof. resume_cases k s; done. Qed.
Lemma resume_chain k s w : w_chain (resume k s w) = w_chain w.
  Proof. resume_cases k s; done. Qed.

  (** A resumed handler either finishes or suspends again on a promise
      that has not settled yet. *)
Lemma resume_tasks k s w :
    w_tasks (resume k s w) = w_tasks w \/
    exists k', w_tasks (resume k s w) = w_tasks w ++ [mkTask k' None].
  Proof. resume_cases k s; eauto. Qed.

(** C28: every resumption ends its handler or suspends it again at a later
    [await], one with fewer [await]s left: a handler started at a first
    [await] is resumed at most [cont_depth] (at most three) times, so every
    handler terminates once its promises settle. *)
Theorem resume_terminates k s w :
  w_tasks (resume k s w) = w_tasks w \/
  exists k', w_tasks (resume k s w) = w_tasks w ++ [mkTask k' None] /\
    (cont_depth k' < cont_depth k)%nat.
Proof. resume_cases k s; first [by left | right; eexists; split; [done|simpl; lia]]. Qed.

  (** Only the subscription effect registers a listener, at the current
      end of the event log. *)
Lemma resume_listeners k s w :
    w_listeners (resume k s w) = w_listeners w \/
    (k = KSubscribeSetup /\
     w_listeners (resume k s w) =
       w_listeners w ++ [mkListener (length (Contract.ch_waves (w_chain w)))]).
  Proof. resume_cases k s; eauto. Qed.

  (** Only [getAllWaves] writes [allWaves] on resumption: it replaces it. *)
Lemma resume_allWaves k s w :
    allWaves (w_app (resume k s w)) = allWaves (w_app w) \/
    exists ws, k = KAllFetch /\ s = Fulfilled (VWaves ws) /\ w_phase w = Mounted /\
               allWaves (w_app (resume k s w)) = map clean_wave ws.
  Proof.
    resume_cases k s; rewrite ?set_state_app; repeat case_decide; simpl; eauto 8.
  Qed.
End ResumeFootprint.

Section SettleFootprint.
  Implicit Types (w : World) (k : Cont) (a : answer).

Lemma settle_phase w k a w' s : settle w k a = Some (w', s) -> w_phase w' = w_phase w.
  Proof. unfold settle. intros; repeat case_match; simplify_eq/=; done. Qed.
Lemma settle_app w k a w' s : settle w k a = Some (w', s) -> w_app w' = w_app w.
  Proof. unfold settle. intros; repeat case_match; simplify_eq/=; done. Qed.
Lemma settle_tasks w k a w' s : settle w k a = Some (w', s) -> w_tasks w' = w_tasks w.
  Proof. unfold settle. intros; repeat case_match; simplify_eq/=; done. Qed.
Lemma settle_listeners w k a w' s :
    settle w k a = Some (w', s) -> w_listeners w' = w_listeners w.
  Proof. unfold settle. intros; repeat case_match; simplify_eq/=; done. Qed.
Lemma settle_waves w k a w' s :
    settle w k a = Some (w', s) ->
    Contract.ch_waves (w_chain w') = Contract.ch_waves (w_chain w).
  Proof.
    unfold settle, send_wave. intros; repeat case_match; simplify_eq/=; done.
  Qed.
End SettleFootprint.

(** ** Executions *)

Lemma exec_any_step w w' : fstep exec w w' -> any_step w w'.
Proof. intros [e He]. exists e. by apply exec_sound. Qed.

(** A run of the interpreter from a page load is a reachable world. *)
Lemma run_reachable eth history evs w :
  run exec (init eth history) evs = Some w -> reachable_from eth history w.
Proof.
  intros H. unfold reachable_from.
  eapply rtc_subrel; [apply exec_any_step|]. by eapply run_rtc.
Qed.

Lemma mount_start : handler_start (fun w => subscribe_effect (getAllWaves (checkIfWalletIsConnected w))).
Proof.
  apply handler_start_compose; [apply handler_start_compose|];
    auto using checkIfWalletIsConnected_start, getAllWaves_start, subscribe_effect_start.
Qed.

#[export] Hint Resolve checkIfWalletIsConnected_start connectWallet_start wave_start
  getAllWaves_start subscribe_effect_start mount_start : wave.

(** ** The chain only grows *)

Lemma step_waves_prefix w e w' :
  step w e w' -> Contract.ch_waves (w_chain w) `prefix_of` Contract.ch_waves (w_chain w').
Proof.
  intros Hs; destruct Hs.
  - unfold mount. by destruct (mount_start (set_phase Mounted w)) as (_&_&_&->&_).
  - done.
  - unfold handleValue. by rewrite set_state_chain.
  - by destruct (wave_start w) as (_&_&_&->&_).
  - by destruct (connectWallet_start w) as (_&_&_&->&_).
  - match goal with H : settle _ _ _ = _ |- _ => simpl; by rewrite (settle_waves _ _ _ _ _ H) end.
  - by rewrite resume_chain.
  - by eapply mine_waves.
  - unfold deliver_to, onNewWave. by rewrite set_state_chain.
  - done.
  - done.
Qed.

Lemma reachable_step w w' : reachable w -> any_step w w' -> reachable w'.
Proof.
  intros (eth & h & Hr) Hs. exists eth, h. eapply rtc_r; eauto.
Qed.

(** ** Invariants of the pending tasks *)

(** How a step changes the pending tasks: handlers start (new tasks), a
    promise settles (the task is updated in place), or a task resumes
    (it is removed; its continuation may be added). *)
Lemma step_tasks_cases w e w' :
  step w e w' ->
  (exists l, w_tasks w' = w_tasks w ++ l /\ Forall (fresh_task (w_eth w)) l) \/
  (exists i k a w0 s, w_tasks w !! i = Some (mkTask k None) /\ settle w k a = Some (w0, s) /\
     w' = set_tasks (<[i := mkTask k (Some s)]> (w_tasks w)) w0) \/
  (exists i k s, w_tasks w !! i = Some (mkTask k (Some s)) /\
     w' = resume k s (set_tasks (delete i (w_tasks w)) w)).
Proof.
  intros Hs; destruct Hs;
    try (left; exists []; rewrite app_nil_r; split; [|done];
         first [done | unfold deliver_to, onNewWave, handleValue; by autorewrite with wave_simpl]).
  - left. unfold mount. by destruct (mount_start (set_phase Mounted w)) as (_&_&_&_&_&l&->&Hl); eauto.
  - left. by destruct (wave_start w) as (_&_&_&_&_&l&->&Hl); eauto.
  - left. by destruct (connectWallet_start w) as (_&_&_&_&_&l&->&Hl); eauto.
  - right; left. eauto 10.
  - right; right. eauto.
Qed.

Section TaskInvariant.
  (** [P w t]: task [t] is well-formed in world [w]. *)
Context (P : World -> Task -> Prop).

Definition tasks_inv (w : World) : Prop := Forall (P w) (w_tasks w).

Hypothesis P_step : forall w e w' t, step w e w' -> P w t -> P w' t.
Hypothesis P_fresh : forall w e w' t, step w e w' -> fresh_task (w_eth w) t -> P w' t.
Hypothesis P_settle : forall w i k a w0 s,
    w_tasks w !! i = Some (mkTask k None) -> settle w k a = Some (w0, s) ->
    P w (mkTask k None) ->
    P (set_tasks (<[i := mkTask k (Some s)]> (w_tasks w)) w0) (mkTask k (Some s)).
Hypothesis P_resume : forall w i k s k',
    w_tasks w !! i = Some (mkTask k (Some s)) -> P w (mkTask k (Some s)) ->
    w_tasks (resume k s (set_tasks (delete i (w_tasks w)) w)) =
      delete i (w_tasks w) ++ [mkTask k' None] ->
    P (resume k s (set_tasks (delete i (w_tasks w)) w)) (mkTask k' None).

Lemma tasks_inv_step w e w' : step w e w' -> tasks_inv w -> tasks_inv w'.
  Proof.
    intros Hs Hinv. unfold tasks_inv in *.
    assert (Hlift : Forall (P w') (w_tasks w)) by (eapply Forall_impl; eauto).
    destruct (step_tasks_cases _ _ _ Hs) as [(l&->&Hl)|[(i&k&a&w0&s&Hi&Hst&->)|(i&k&s&Hi&->)]].
    - apply Forall_app; split; [done|]. eapply Forall_impl; eauto.
    - simpl. apply Forall_insert; [done|]. eapply P_settle; eauto.
      by eapply Forall_lookup_1.
    - destruct (resume_tasks k s (set_tasks (delete i (w_tasks w)) w)) as [Ht|[k' Ht]];
        rewrite Ht; simpl.
      + by apply Forall_delete.
      + apply Forall_app; split; [by apply Forall_delete|].
        constructor; [|done]. eapply P_resume; eauto. by eapply Forall_lookup_1.
  Qed.
End TaskInvariant.

(** ** Concrete configurations used by the examples *)

Definition demo_account : account := "0xABC".
Definition other_account : account := "0xDEF".
(** A wallet that already authorised the page. *)
Definition demo_provider : Provider :=
  {| authorized := [demo_account]; wallet_accounts := [demo_account] |}.
(** A wallet that has never been connected to the page. *)
Definition fresh_provider : Provider :=
  {| authorized := []; wallet_accounts := [demo_account] |}.
Definition demo_wave : Contract.Wave := Contract.mkWave other_account 1690000000 "hi".

(** The world after a run, or [w0] if some event was not enabled. *)
Definition run_or (w0 : World) (evs : list event) : World :=
  match run exec w0 evs with Some w => w | None => w0 end.

(** Nothing is pending: no suspended handler, no transaction in the
    mempool, every listener has received every event. *)
Definition quiescent (w : World) : Prop :=
  w_tasks w = [] /\ Contract.ch_mempool (w_chain w) = [] /\
  Forall (fun l => l_cursor l = length (Contract.ch_waves (w_chain w))) (w_listeners w).

Lemma run_or_reachable eth history evs :
  is_Some (run exec (init eth history) evs) ->
  reachable_from eth history (run_or (init eth history) evs).
Proof.
  intros [w Hw]. unfold run_or. rewrite Hw. by eapply run_reachable.
Qed.

(** Induction on a run from a page load: an invariant of every [step]
    that holds initially holds in every reachable world. *)
Lemma reachable_invariant (P : World -> Prop) eth history w :
  (forall a e b, a --[ e ]--> b -> P a -> P b) -> P (init eth history) ->
  reachable_from eth history w -> P w.
Proof.
  intros Hstep H0 Hr. apply (rtc_preserved any_step P (init eth history) w); [|done|done].
  intros a b [e Hs] Ha. exact (Hstep a e b Hs Ha).
Qed.
