(* ===== verification/LogProperties.v ===== *)
(** * Properties of the wave log in the running component

    [log_update] is one operation of the abstract log of [WaveLog]
    (spec section 4.4), reading a chain; [allWaves_refines] shows that
    every transition of [Semantics.step] from a reachable world performs
    one.  It rests on [snap_inv]: a snapshot fetched by [getAllWaves] and
    not yet stored is part of the chain.  [log_inv] (no record is made up)
    follows.  The last theorems are runs of the component that end with
    nothing pending and a log that differs from the chain's history: the
    code's answer to the open question of section 4.4 is to overwrite on
    seed and to append every event. *)

From S2P Require Import Prelude JsNum Wallet Chain State WalletSession TxLifecycle WaveLog WaveCount Semantics.

Local Open Scope Z_scope.
Local Open Scope wave_scope.

(** One abstract operation, with the chain it reads from. *)
Inductive log_update {L} `{WaveLogOps L} (c : list Contract.Wave) (l l' : L) : Prop :=
| lu_stutter :
    log_view l' = log_view l -> log_update c l l'
| lu_seed ws :
    ws ⊆ c -> log_view l' = log_view (seed (map clean_wave ws) l) -> log_update c l l'
| lu_append wv :
    wv ∈ c ->
    log_view l' = log_view (appendFromEvent (Contract.waver wv) (Contract.message wv)
                                            (Contract.timestamp wv) l) ->
    log_update c l l'.

(** ** Snapshots held by pending tasks *)

(** A fetched list of waves, not yet stored, is part of the chain. *)
Definition snap_ok (c : list Contract.Wave) (t : Task) : Prop :=
  forall ws, t_settled t = Some (Fulfilled (VWaves ws)) -> ws ⊆ c.

Definition snap_inv (w : World) : Prop :=
  Forall (snap_ok (Contract.ch_waves (w_chain w))) (w_tasks w).

Lemma snap_ok_mono c1 c2 t : c1 `prefix_of` c2 -> snap_ok c1 t -> snap_ok c2 t.
Proof. intros Hp Hok ws Hs x Hx. eapply elem_of_prefix; [done|]. by apply (Hok ws). Qed.

Lemma fresh_snap_ok eth c t : fresh_task eth t -> snap_ok c t.
Proof.
  intros [_ Ht] ws Hs. rewrite Ht in Hs. destruct (awaits_wallet _); [done|].
  unfold settle_setup in Hs. by case_match.
Qed.

Lemma settle_snapshot w k a w' s ws :
  settle w k a = Some (w', s) -> s = Fulfilled (VWaves ws) ->
  ws = Contract.ch_waves (w_chain w).
Proof.
  unfold settle, call_getAllWaves, send_wave. intros H ->.
  repeat case_match; simplify_eq/=; done.
Qed.

#[export] Hint Resolve snap_ok_mono fresh_snap_ok : wave.

Lemma step_snap_inv w e w' : step w e w' -> snap_inv w -> snap_inv w'.
Proof.
  apply (tasks_inv_step (fun w t => snap_ok (Contract.ch_waves (w_chain w)) t)).
  - intros w0 e0 w1 t Hs. apply snap_ok_mono. by eapply step_waves_prefix.
  - intros ? ? ? ? _. apply fresh_snap_ok.
  - intros w0 i k a w1 s _ Hst _ ws Hws. simpl in Hws; simplify_eq.
    rewrite (settle_snapshot _ _ _ _ _ ws Hst eq_refl); simpl.
    by rewrite (settle_waves _ _ _ _ _ Hst).
  - by intros ? ? ? ? ? ? ? ? ?.
Qed.

Lemma reachable_snap_inv w : reachable w -> snap_inv w.
Proof.
  intros (eth & h & Hr). revert Hr.
  apply reachable_invariant; [apply step_snap_inv|by unfold snap_inv].
Qed.

Lemma set_state_allWaves_stutter f w :
  (forall s, allWaves (f s) = allWaves s) ->
  allWaves (w_app (set_state f w)) = allWaves (w_app w).
Proof. intros Hf. rewrite set_state_app. by case_decide. Qed.

Lemma start_allWaves h w : handler_start h -> allWaves (w_app (h w)) = allWaves (w_app w).
Proof. intros Hh. by destruct (Hh w) as (_&->&_). Qed.

(** ** Refinement *)

Lemma step_log_update w e w' :
  reachable w -> step w e w' ->
  log_update (Contract.ch_waves (w_chain w)) (w_app w) (w_app w').
Proof.
  intros Hr Hs. pose proof (reachable_snap_inv _ Hr) as Hsnap.
  destruct Hs; try (apply lu_stutter; simpl; done).
  - apply lu_stutter. unfold mount. simpl. by rewrite (start_allWaves _ _ mount_start).
  - apply lu_stutter. unfold handleValue. by apply set_state_allWaves_stutter.
  - apply lu_stutter. by apply start_allWaves, wave_start.
  - apply lu_stutter. by apply start_allWaves, connectWallet_start.
  - apply lu_stutter. simpl. by rewrite (settle_app _ _ _ _ _ H0).
  - destruct (resume_allWaves k s (set_tasks (delete i (w_tasks w)) w))
      as [Heq|(ws&->&->&Hm&Heq)]; [by apply lu_stutter|].
    apply (lu_seed _ _ _ ws).
    + eapply (Forall_lookup_1 _ _ _ _ Hsnap H); done.
    + exact Heq.
  - unfold deliver_to, onNewWave. rewrite set_state_app. simpl. case_decide.
    + apply (lu_append _ _ _ wv); [by eapply list_elem_of_lookup_2|done].
    + by apply lu_stutter.
Qed.


(** ** No record is made up *)

Definition from_chain (c : list Contract.Wave) (r : WaveRecord) : Prop :=
  exists wv, wv ∈ c /\ r = clean_wave wv.

Definition log_inv (w : World) : Prop :=
  Forall (from_chain (Contract.ch_waves (w_chain w))) (allWaves (w_app w)).

Lemma from_chain_mono c1 c2 r : c1 `prefix_of` c2 -> from_chain c1 r -> from_chain c2 r.
Proof. intros Hp (wv & Hin & ->). exists wv. split; [by eapply elem_of_prefix|done]. Qed.

Lemma log_update_inv c (s s' : AppState) :
  log_update c s s' -> Forall (from_chain c) (allWaves s) -> Forall (from_chain c) (allWaves s').
Proof.
  intros [Heq|ws Hws Heq|wv Hwv Heq] Hf; simpl in Heq; rewrite Heq.
  - done.
  - apply Forall_forall. intros r (wv & -> & Hin)%list_elem_of_fmap. exists wv. auto.
  - apply Forall_snoc; [done|]. by exists wv.
Qed.

(** C8: in every reachable world, each record of [allWaves] is the cleaned
    form of a wave recorded on the chain: a submitted wave is never
    synthesised locally (spec section 4.3). *)
Theorem allWaves_from_chain w : reachable w -> log_inv w.
Proof.
  intros (eth & h & Hr).
  cut (reachable w /\ log_inv w); [tauto|].
  revert Hr. apply (reachable_invariant (fun w => reachable w /\ log_inv w));
    [|split; [exists eth, h; apply rtc_refl | constructor]].
  intros a e b Hs [Ha Hinv]. split; [eapply reachable_step; [exact Ha|by exists e]|].
  pose proof (log_update_inv _ _ _ (step_log_update a e b Ha Hs) Hinv) as Hb.
  eapply Forall_impl; [exact Hb|].
  intros r. apply from_chain_mono. by eapply step_waves_prefix.
Qed.

Lemma allWaves_from_chain_witness :
  let w := run_or (init (Some demo_provider) [demo_wave])
                  [EvMount; EvResume 1; EvSettle 2 AnsOk; EvResume 2] in
  reachable w /\ log_inv w /\ allWaves (w_app w) = [clean_wave demo_wave].
Proof.
  cbv zeta. assert (Hr : reachable (run_or (init (Some demo_provider) [demo_wave])
    [EvMount; EvResume 1; EvSettle 2 AnsOk; EvResume 2])).
  { eexists _, _. apply run_or_reachable. vm_compute. by eexists. }
  split; [exact Hr|]. split; [exact (allWaves_from_chain _ Hr)|]. vm_compute. reflexivity.
Defined.

(** The log shows exactly the waves of the chain, in chain order. *)
Definition log_matches_chain (w : World) : Prop :=
  allWaves (w_app w) = map clean_wave (Contract.ch_waves (w_chain w)).

(** ** What the code does with the freedom of section 4.4 *)


(** C13: the bulk fetch overwrites the log (line 144) instead of merging
    it, so a [NewWave] delivered while [getAllWaves] was in flight is
    erased: in a run from a page load, the snapshot is taken, a wave is
    then mined and delivered to the listener and shown, and resuming the
    fetch with its older snapshot removes that record, though the wave is
    on the chain (spec section 5 (a) asks that a late seed not erase live
    records). *)
Theorem seed_erases_live_event :
  exists w i ws w' wv,
    reachable_from (Some demo_provider) [] w /\
    w_tasks w !! i = Some (mkTask KAllFetch (Some (Fulfilled (VWaves ws)))) /\
    w --[ EvResume i ]--> w' /\
    wv ∈ Contract.ch_waves (w_chain w') /\ (wv ∉ ws) /\
    clean_wave wv ∈ allWaves (w_app w) /\ clean_wave wv ∉ allWaves (w_app w').
Proof.
  set (w := run_or (init (Some demo_provider) [])
              [EvMount; EvResume 1; EvResume 1; EvSettle 1 AnsOk; EvForeignWave other_account "hi";
               EvMine 0 1690000000 true; EvDeliver 0]).
  exists w, 1%nat, [], (run_or w [EvResume 1]), (Contract.mkWave other_account 1690000000 "hi").
  split; [apply run_or_reachable; vm_compute; by eexists|].
  split; [vm_compute; reflexivity|]. split; [apply exec_sound; vm_compute; reflexivity|].
  vm_compute. split_and!; [by left|apply not_elem_of_nil|by left|apply not_elem_of_nil].
Qed.


(** C16: a visitor whose wallet has not authorised the page sees no
    history until a reload: the fetch at mount is rejected, for the
    signer has no address (line 125; ethers' "unknown account #0"), and
    connecting does not fetch again: the click starts only the
    [eth_requestAccounts] request (line 102), and its continuation,
    whatever it resumes with, starts nothing and leaves the log as it was
    (lines 104-113). *)
Theorem history_hidden_after_connect w p s :
  w_eth w = Some p -> eth_accounts p = [] ->
  settle w KAllFetch AnsOk = Some (w, Rejected ErrUnknownAccount) /\
  w_tasks (connectWallet w) = w_tasks w ++ [mkTask KConnectAccounts None] /\
  allWaves (w_app (connectWallet w)) = allWaves (w_app w) /\
  w_tasks (resume KConnectAccounts s w) = w_tasks w /\
  allWaves (w_app (resume KConnectAccounts s w)) = allWaves (w_app w).
Proof.
  intros Hp Ha. unfold settle, call_getAllWaves, signer_address, connectWallet.
  rewrite Hp, Ha. split_and!; try done.
  all: simpl; unfold resume_session, set_first_account; repeat case_match;
    rewrite ?set_state_tasks, ?set_state_app; repeat case_decide; done.
Qed.

Lemma history_hidden_after_connect_witness :
  w_eth (mounted_world (Some fresh_provider)) = Some fresh_provider /\
  eth_accounts fresh_provider = [] /\
  w_tasks (resume KConnectAccounts (Fulfilled (VAccounts [demo_account]))
             (mounted_world (Some fresh_provider))) = [].
Proof.
  split; [reflexivity|]. split; [reflexivity|].
  exact (proj1 (proj2 (proj2 (proj2 (history_hidden_after_connect (mounted_world (Some fresh_provider))
           fresh_provider (Fulfilled (VAccounts [demo_account])) eq_refl eq_refl))))).
Defined.

(** C15: for every wallet that has already authorised an account and every
    history of the contract, the fetch started at mount shows the whole
    history, in chain order: mounting, resuming the binding, answering
    [getAllWaves()] and resuming the fetch leave a log equal to the
    cleaned waves of the chain (spec section 4.4: [seed] at startup). *)
Theorem history_shown_when_authorised p h :
  eth_accounts p <> [] ->
  exists w, reachable_from (Some p) h w /\ w_phase w = Mounted /\ log_matches_chain w /\
    Contract.ch_waves (w_chain w) = h.
Proof.
  intros Ha. destruct p as [[|a accs] wa]; [done|].
  eexists. split.
  { unfold reachable_from.
    take_step EvMount. take_step (EvResume 1). take_step (EvSettle 2 AnsOk).
    take_step (EvResume 2).
    apply rtc_refl. }
  rewrite !resume_phase, !resume_chain. cbn [w_chain w_phase set_tasks].
  split; [reflexivity|]. split; [|reflexivity].
  unfold log_matches_chain. rewrite !resume_chain. cbn [resume resume_log].
  rewrite set_state_app, decide_True, clean_waves_map; [reflexivity|].
  reflexivity.
Qed.

Lemma history_shown_when_authorised_witness :
  eth_accounts demo_provider <> [] /\
  exists w, reachable_from (Some demo_provider) [demo_wave] w /\ w_phase w = Mounted /\
    log_matches_chain w /\ Contract.ch_waves (w_chain w) = [demo_wave].
Proof.
  assert (Ha : eth_accounts demo_provider <> []) by (vm_compute; congruence).
  split; [exact Ha|]. exact (history_shown_when_authorised demo_provider [demo_wave] Ha).
Defined.


