(* ===== verification/SessionProperties.v ===== *)
(** * Properties of the wallet session and of the component's lifecycle

    [no_provider_inert]: without [window.ethereum] nothing ever happens
    but alerts and typing: no request, no account, no listener, no record
    (spec P5 and scenario A over whole runs).  [subscription_retained]: the
    [NewWave] listener registered by the second effect is never removed,
    not even by unmounting, because the effect is an [async] function and
    returns a Promise instead of its cleanup closure.
    [single_subscription]: at most one listener is ever registered, since
    only the mount runs the effect ([subscriptions] counts listeners and
    effects suspended before registering).  [stale_account_redirects]: the
    account shown is not the one a wave is sent from once the user
    switches accounts in the wallet.  [connect_double_prompt]: two clicks
    on "Connect Wallet" open two wallet prompts.  [connect_stores_account]:
    the click, an approved prompt and the resumption store the wallet's
    first account. *)

From S2P Require Import Prelude JsNum Wallet Chain State WalletSession TxLifecycle WaveLog WaveCount Semantics.

Local Open Scope wave_scope.



(** ** Without a provider *)

(** Nothing pending, nothing registered, nothing stored. *)
Definition inert (w : World) : Prop :=
  w_eth w = None /\ w_tasks w = [] /\ w_listeners w = [] /\
  currentAccount (w_app w) = "" /\ allWaves (w_app w) = [] /\ mining (w_app w) = false.

Lemma step_inert w e w' : step w e w' -> inert w -> inert w'.
Proof.
  intros Hs (He & Ht & Hl & Ha & Hw & Hm). destruct Hs; unfold inert; simpl in *.
  - unfold mount, subscribe_effect, getAllWaves, checkIfWalletIsConnected, set_phase; simpl.
    rewrite He. by split_and!.
  - by split_and!.
  - unfold handleValue. autorewrite with wave_simpl. rewrite set_state_app.
    case_decide; by split_and!.
  - unfold wave. rewrite He. by split_and!.
  - unfold connectWallet, alert. rewrite He. by split_and!.
  - by rewrite Ht in H.
  - by rewrite Ht in H.
  - by split_and!.
  - by rewrite Hl in H.
  - congruence.
  - by split_and!.
Qed.

(** C17: in a page without a wallet provider, every reachable world is
    inert: no wallet request is ever made, the account stays unset, no
    listener is registered and the log stays empty (spec P5, scenario A). *)
Theorem no_provider_inert history w :
  reachable_from None history w -> inert w.
Proof.
  apply reachable_invariant; [apply step_inert|done].
Qed.

Lemma no_provider_inert_witness :
  reachable_from None [demo_wave] (run_or (init None [demo_wave]) [EvMount; EvClickConnect]) /\
  inert (run_or (init None [demo_wave]) [EvMount; EvClickConnect]).
Proof.
  assert (Hr : reachable_from None [demo_wave]
                 (run_or (init None [demo_wave]) [EvMount; EvClickConnect])).
  { apply run_or_reachable. vm_compute. by eexists. }
  split; [exact Hr|]. exact (no_provider_inert _ _ Hr).
Defined.

(** ** The [NewWave] subscription *)

(** The number of [NewWave] listeners registered with the provider. *)
Definition subscribed (w : World) : nat := length (w_listeners w).

Lemma step_subscribed w e w' : w --[ e ]--> w' -> subscribed w <= subscribed w'.
Proof.
  unfold subscribed. intros Hs; destruct Hs; simpl.
  - unfold mount. by destruct (mount_start (set_phase Mounted w)) as (_&_&_&_&->&_).
  - done.
  - unfold handleValue. by rewrite set_state_listeners.
  - by destruct (wave_start w) as (_&_&_&_&->&_).
  - by destruct (connectWallet_start w) as (_&_&_&_&->&_).
  - by rewrite (settle_listeners _ _ _ _ _ H0).
  - destruct (resume_listeners k s (set_tasks (delete i (w_tasks w)) w)) as [->|[_ ->]];
      simpl; rewrite ?length_app; lia.
  - done.
  - unfold deliver_to, onNewWave. rewrite set_state_listeners. simpl.
    by rewrite length_insert.
  - done.
  - done.
Qed.

(** A subscription registered, or on its way: the listeners plus the
    subscription effects suspended at their [await] (line 181). *)
Definition is_subscribe (t : Task) : bool :=
  match t_cont t with KSubscribeSetup => true | _ => false end.

Definition subscribe_tasks (ts : list Task) : nat := length (List.filter is_subscribe ts).

Definition subscriptions (w : World) : nat :=
  length (w_listeners w) + subscribe_tasks (w_tasks w).

Lemma subscribe_tasks_app ts1 ts2 :
  subscribe_tasks (ts1 ++ ts2) = subscribe_tasks ts1 + subscribe_tasks ts2.
Proof. unfold subscribe_tasks. by rewrite List.filter_app, length_app. Qed.

Lemma subscribe_tasks_insert ts i k s s' :
  ts !! i = Some (mkTask k s) -> subscribe_tasks (<[i := mkTask k s']> ts) = subscribe_tasks ts.
Proof.
  unfold subscribe_tasks. revert i; induction ts as [|t ts IH]; intros [|i] Hi; simplify_eq/=; [by destruct k|].
  by destruct (is_subscribe t); simpl; rewrite IH.
Qed.

Lemma subscribe_tasks_delete ts i t :
  ts !! i = Some t ->
  subscribe_tasks ts = subscribe_tasks (delete i ts) + if is_subscribe t then 1 else 0.
Proof.
  unfold subscribe_tasks. revert i; induction ts as [|t' ts IH]; intros [|i] Hi; simplify_eq/=.
  - destruct (is_subscribe t); simpl; lia.
  - destruct (is_subscribe t'); simpl; rewrite (IH i Hi); lia.
Qed.

Lemma resume_spawn_not_subscribe k s w k' :
  w_tasks (resume k s w) = w_tasks w ++ [mkTask k' None] -> is_subscribe (mkTask k' None) = false.
Proof. resume_cases k s; intros Ht; snoc_contra Ht. Qed.

Lemma resume_subscriptions k s w :
  subscriptions (resume k s w) <= subscriptions w + if is_subscribe (mkTask k (Some s)) then 1 else 0.
Proof.
  unfold subscriptions.
  assert (Ht : subscribe_tasks (w_tasks (resume k s w)) = subscribe_tasks (w_tasks w)).
  { destruct (resume_tasks k s w) as [->|[k' Hk]]; [done|].
    rewrite Hk, subscribe_tasks_app. unfold subscribe_tasks at 2. simpl.
    rewrite (resume_spawn_not_subscribe _ _ _ _ Hk). simpl. lia. }
  rewrite Ht. destruct (resume_listeners k s w) as [->|[-> ->]]; simpl;
    rewrite ?length_app; simpl; [destruct k|]; simpl; lia.
Qed.

Lemma start_subscriptions h w :
  handler_start h -> (forall w, subscribe_tasks (w_tasks (h w)) = subscribe_tasks (w_tasks w)) ->
  subscriptions (h w) = subscriptions w.
Proof. intros Hh Ht. unfold subscriptions. rewrite Ht. by destruct (Hh w) as (_&_&_&_&->&_). Qed.

Lemma spawn_subscribe_tasks k s w :
  subscribe_tasks (w_tasks (spawn k s w)) =
  subscribe_tasks (w_tasks w) + if is_subscribe (mkTask k s) then 1 else 0.
Proof. unfold spawn. simpl. rewrite subscribe_tasks_app. unfold subscribe_tasks at 2. simpl. by destruct k. Qed.

(** Only the mount registers a subscription, and at most one. *)
Lemma step_subscriptions w e w' :
  step w e w' ->
  subscriptions w' <= subscriptions w \/
  (w_phase w = NotMounted /\ w_phase w' = Mounted /\ subscriptions w' <= subscriptions w + 1).
Proof.
  intros Hs; destruct Hs.
  - right. split; [done|]. split; [unfold mount; by destruct (mount_start (set_phase Mounted w)) as (->&_)|].
    unfold mount, subscribe_effect, getAllWaves, checkIfWalletIsConnected.
    destruct w as [ph app [p|] c ts ls al]; unfold subscriptions, spawn, set_phase, set_tasks;
      simpl; rewrite ?subscribe_tasks_app; unfold subscribe_tasks; simpl; lia.
  - by left.
  - left. unfold handleValue, subscriptions. by rewrite set_state_listeners, set_state_tasks.
  - left. rewrite (start_subscriptions wave); [done|apply wave_start|].
    intros w0. unfold wave. destruct (w_eth w0); [|done]. rewrite spawn_subscribe_tasks. simpl. lia.
  - left. rewrite (start_subscriptions connectWallet); [done|apply connectWallet_start|].
    intros w0. unfold connectWallet. destruct (w_eth w0); [|done]. rewrite spawn_subscribe_tasks. simpl. lia.
  - left. unfold subscriptions. simpl. rewrite (settle_listeners _ _ _ _ _ H0).
    by rewrite (subscribe_tasks_insert _ _ _ _ _ H).
  - destruct (decide (k = KSubscribeSetup)) as [->|Hk]; [|left].
    + pose proof (resume_subscriptions KSubscribeSetup s (set_tasks (delete i (w_tasks w)) w)) as Hr.
      unfold subscriptions in *. simpl in *.
      rewrite (subscribe_tasks_delete _ _ _ H). simpl. left. lia.
    + pose proof (resume_subscriptions k s (set_tasks (delete i (w_tasks w)) w)) as Hr.
      unfold subscriptions in *. simpl in *.
      rewrite (subscribe_tasks_delete _ _ _ H). simpl in *. destruct k; try done; lia.
  - by left.
  - left. unfold deliver_to, onNewWave, subscriptions.
    rewrite set_state_listeners, set_state_tasks. simpl. by rewrite length_insert.
  - by left.
  - by left.
Qed.

Lemma step_not_mounted w e w' : step w e w' -> w_phase w' = NotMounted -> w_phase w = NotMounted.
Proof.
  intros Hs Hn; destruct Hs; simpl in Hn; try done.
  - unfold handleValue in Hn. by rewrite set_state_phase in Hn.
  - by destruct (wave_start w) as (<-&_).
  - by destruct (connectWallet_start w) as (<-&_).
  - by rewrite (settle_phase _ _ _ _ _ H0) in Hn.
  - by rewrite resume_phase in Hn.
  - unfold deliver_to, onNewWave in Hn. by rewrite set_state_phase in Hn.
Qed.

Definition sub_inv (w : World) : Prop :=
  (w_phase w = NotMounted -> subscriptions w = 0) /\ subscriptions w <= 1.

Lemma step_sub_inv w e w' : step w e w' -> sub_inv w -> sub_inv w'.
Proof.
  intros Hs [H0 H1]. destruct (step_subscriptions _ _ _ Hs) as [Hle|(Hn & Hm & Hle)].
  - split; [|lia]. intros Hn'. pose proof (step_not_mounted _ _ _ Hs Hn') as Hp.
    specialize (H0 Hp). lia.
  - specialize (H0 Hn). split; [congruence|lia].
Qed.

(** C19: in every reachable world at most one [NewWave] listener is
    registered: only the mount runs the subscription effect, once, so each
    mined wave is delivered to [onNewWave] at most once per listener and
    appended at most once by the live path. *)
Theorem single_subscription w : reachable w -> length (w_listeners w) <= 1.
Proof.
  intros (eth & h & Hr).
  assert (Hi : sub_inv w).
  { revert Hr. apply reachable_invariant; [apply step_sub_inv|unfold sub_inv, subscriptions, subscribe_tasks; simpl; split; [done|lia]]. }
  destruct Hi as [_ Hi]. unfold subscriptions in Hi. lia.
Qed.

Lemma single_subscription_witness :
  let w := run_or (init (Some demo_provider) []) [EvMount; EvResume 2; EvUnmount] in
  reachable w /\ length (w_listeners w) = 1 /\ length (w_listeners w) <= 1.
Proof.
  cbv zeta.
  assert (Hr : reachable (run_or (init (Some demo_provider) []) [EvMount; EvResume 2; EvUnmount])).
  { eexists _, _. apply run_or_reachable. vm_compute. by eexists. }
  split; [exact Hr|]. split; [vm_compute; reflexivity|]. exact (single_subscription _ Hr).
Defined.

(** C18: no transition ever unregisters a [NewWave] listener: the cleanup
    closure of lines 185-189 is never called, since the [async] effect
    returns a Promise and React calls only a returned function. *)
Theorem subscription_retained w w' : w -->* w' -> subscribed w <= subscribed w'.
Proof.
  induction 1 as [|a b c [e Hs] _ IH]; [done|].
  pose proof (step_subscribed _ _ _ Hs). lia.
Qed.

Lemma subscription_retained_witness :
  let w := run_or (init (Some demo_provider) []) [EvMount; EvResume 2] in
  rtc any_step w (run_or w [EvUnmount]) /\ subscribed w = 1 /\
  subscribed w <= subscribed (run_or w [EvUnmount]).
Proof.
  cbv zeta. split; [|split; [vm_compute; reflexivity|]].
  - unfold run_or at 1 3. eapply rtc_subrel; [apply exec_any_step|].
    apply (run_rtc exec _ [EvUnmount]). vm_compute. reflexivity.
  - apply subscription_retained. unfold run_or at 1 3. eapply rtc_subrel; [apply exec_any_step|].
    apply (run_rtc exec _ [EvUnmount]). vm_compute. reflexivity.
Defined.

(** ** The account shown and the account that signs *)

(** C20: the account shown is not the account that signs.  After the user
    switches the wallet to the accounts [b :: rest] (the page is not told:
    it does not listen to [accountsChanged]), the page still shows its old
    [currentAccount], and the next click on "Wave at Me", with the
    wallet's answers, sends the client's transaction from [b], the
    signer's current account (lines 18-19 and 81), though [b] is not the
    account shown (spec section 5 (c): an operation bound to a stale
    account should fail rather than be silently redirected). *)
Theorem stale_account_redirects w p b rest :
  w_phase w = Mounted -> w_eth w = Some p -> mining (w_app w) = false ->
  b <> currentAccount (w_app w) ->
  exists w',
    w --[ [EvSwitchAccounts (b :: rest); EvClickWave; EvResume (length (w_tasks w));
           EvSettle (length (w_tasks w)) AnsOk; EvResume (length (w_tasks w))] ]-->* w' /\
    currentAccount (w_app w') = currentAccount (w_app w) /\
    Contract.ch_mempool (w_chain w') =
      Contract.ch_mempool (w_chain w) ++
        [Contract.mkTx (Contract.ch_next_tx (w_chain w)) b (value (w_app w)) gasLimit] /\
    b <> currentAccount (w_app w').
Proof.
  intros Hm Hp Hmin Hb.
  set (w1 := set_eth (Some (switch_accounts p (b :: rest))) w).
  pose proof (click_wave_run w1 (switch_accounts p (b :: rest)) b Hm eq_refl eq_refl Hmin) as Hrun.
  eexists. split; [exists w1; split; [by apply st_switch|exact Hrun]|].
  unfold spawn. simpl. rewrite set_state_chain, set_state_app. simpl. rewrite Hm, decide_True by done.
  split_and!; done.
Qed.

Lemma stale_account_redirects_witness :
  let w := run_or (init (Some demo_provider) []) [EvMount; EvSettle 0 AnsOk; EvResume 0] in
  currentAccount (w_app w) = demo_account /\
  exists w',
    w --[ [EvSwitchAccounts [other_account]; EvClickWave; EvResume 2; EvSettle 2 AnsOk;
           EvResume 2] ]-->* w' /\
    currentAccount (w_app w') = demo_account /\
    Contract.ch_mempool (w_chain w') = [Contract.mkTx 0 other_account "" gasLimit].
Proof.
  cbv zeta. split; [vm_compute; reflexivity|].
  destruct (stale_account_redirects
              (run_or (init (Some demo_provider) []) [EvMount; EvSettle 0 AnsOk; EvResume 0])
              demo_provider other_account []
              ltac:(vm_compute; reflexivity) ltac:(vm_compute; reflexivity)
              ltac:(vm_compute; reflexivity) ltac:(vm_compute; discriminate))
    as (w' & Hr & Hc & Hmp & _).
  exists w'. rewrite Hc, Hmp. split; [exact Hr|]. split; vm_compute; reflexivity.
Defined.

(** ** The provider does not go away *)

Lemma step_provider w e w' : step w e w' -> is_Some (w_eth w) -> is_Some (w_eth w').
Proof.
  intros Hs He. destruct Hs; simpl.
  - unfold mount. by destruct (mount_start (set_phase Mounted w)) as (_&_&->&_).
  - done.
  - unfold handleValue. by rewrite set_state_eth.
  - by destruct (wave_start w) as (_&_&->&_).
  - by destruct (connectWallet_start w) as (_&_&->&_).
  - match goal with H : settle _ _ _ = _ |- _ => revert H end.
    unfold settle. intros; repeat case_match; simplify_eq/=; by eexists.
  - by rewrite resume_eth.
  - done.
  - unfold deliver_to, onNewWave. by rewrite set_state_eth.
  - by eexists.
  - done.
Qed.

(** A pending task implies a provider. *)
Lemma reachable_tasks_provider w :
  reachable w -> w_tasks w <> [] -> exists p, w_eth w = Some p.
Proof.
  intros (eth & h & Hr) Ht. destruct eth as [p|].
  - assert (He : is_Some (w_eth w)).
    { revert Hr. apply (reachable_invariant (fun w => is_Some (w_eth w)));
        [apply step_provider|by eexists]. }
    destruct He as [p' Hp']. by exists p'.
  - assert (Hi : inert w).
    { revert Hr. apply reachable_invariant; [apply step_inert|done]. }
    by destruct Hi as (_ & Ht' & _).
Qed.

(** ** Connecting twice *)

(** Wallet prompts of [eth_requestAccounts] still open. *)
Definition open_prompts (w : World) : nat :=
  length (List.filter (fun t => bool_decide (t = mkTask KConnectAccounts None)) (w_tasks w)).

(** C21: the "Connect Wallet" button stays rendered until an account is
    stored, and [connectWallet] (lines 94-102) has no guard for a request
    in flight: two clicks while the first prompt is open send
    [eth_requestAccounts] twice (spec section 4.1: calling twice never
    double-prompts). *)
Theorem connect_double_prompt :
  exists w, reachable_from (Some fresh_provider) [] w /\ w_phase w = Mounted /\
    currentAccount (w_app w) = "" /\ open_prompts w = 2.
Proof.
  exists (run_or (init (Some fresh_provider) []) [EvMount; EvClickConnect; EvClickConnect]).
  split; [apply run_or_reachable; vm_compute; by eexists|].
  vm_compute. by split_and!.
Qed.

(** ** Connecting *)

(** C24: from any mounted world whose "Connect Wallet" button is shown,
    with a wallet holding the accounts [a :: rest], the click runs
    [connectWallet] (lines 94-114): it suspends on [eth_requestAccounts]
    (line 102); the user approves the prompt, which authorises the
    wallet's accounts; the handler resumes and stores [a], the first of
    them, as [currentAccount] (lines 104-107), and nothing is left pending
    (spec section 4.1: [requestConnection] returns the first authorised
    account). *)
Theorem connect_stores_account w p a rest :
  w_phase w = Mounted -> w_eth w = Some p -> wallet_accounts p = a :: rest ->
  v_connect_button (render (w_app w)) = true ->
  exists w',
    w --[ [EvClickConnect; EvSettle (length (w_tasks w)) AnsOk; EvResume (length (w_tasks w))] ]-->* w' /\
    currentAccount (w_app w') = a /\ w_eth w' = Some (approve_accounts p) /\ w_tasks w' = w_tasks w.
Proof.
  intros Hm Hp Ha Hb. eexists; split.
  { eexists; split; [by apply st_click_connect|].
    unfold connectWallet, spawn. rewrite Hp.
    eexists; split; [apply st_settle; [apply lookup_snoc_length|unfold settle; simpl; by rewrite Hp]|].
    eexists; split; [apply st_resume; simpl; rewrite insert_snoc_length; apply lookup_snoc_length|].
    reflexivity. }
  simpl. rewrite insert_snoc_length, delete_snoc_length, Ha.
  destruct w; simpl in *; subst; split_and!; reflexivity.
Qed.

Lemma connect_stores_account_witness :
  exists w',
    mounted_world (Some fresh_provider) --[ [EvClickConnect; EvSettle 0 AnsOk; EvResume 0] ]-->* w' /\
    currentAccount (w_app w') = demo_account.
Proof.
  destruct (connect_stores_account (mounted_world (Some fresh_provider)) fresh_provider demo_account []
              eq_refl eq_refl eq_refl eq_refl) as (w' & Hr & Hc & _).
  exists w'. split; [exact Hr|exact Hc].
Defined.
