(* ===== verification/TxProperties.v ===== *)
(** * Properties of the busy flag and of the transactions it guards

    Spec section 4.3 asks for one transaction at a time, a second [submit]
    rejected while one is pending, and a busy flag that is true exactly
    while a transaction is pending.  The code has no admission check in
    [wave]; the button is disabled only from the moment the transaction
    has been sent ([setMining(true)], line 82), so a second click while the
    wallet prompt is open starts a second transaction.  What holds
    ([busy_implies_pending], [busy_flag_can_clear]) and what does not
    ([two_transactions_pending], [busy_cleared_while_pending]) are proved
    below, with the tracking invariant [tx_ok] (every awaited transaction
    is known to the chain). *)

From S2P Require Import Prelude JsNum Wallet Chain State WalletSession TxLifecycle WaveLog WaveCount Semantics SessionProperties.



(** The transaction a task waits for, if it waits for a confirmation. *)
Definition waiting_id (t : Task) : option nat :=
  match t_cont t with KWaveWait id => Some id | _ => None end.

Definition pending_in (ts : list Task) : Prop :=
  exists t, t ∈ ts /\ is_Some (waiting_id t).

(** A transaction sent by this client awaits its confirmation. *)
Definition tx_pending (w : World) : Prop := pending_in (w_tasks w).

Definition busy_inv (w : World) : Prop :=
  (w_phase w = NotMounted -> mining (w_app w) = false) /\
  (w_phase w = Mounted -> mining (w_app w) = true -> tx_pending w).

(** ** Pending tasks in a list *)

Lemma pending_app ts l : pending_in ts -> pending_in (ts ++ l).
Proof. intros (t & Ht & Hw). exists t. split; [apply elem_of_app; by left|done]. Qed.

Lemma pending_snoc_wait ts id : pending_in (ts ++ [mkTask (KWaveWait id) None]).
Proof. eexists. split; [apply elem_of_snoc; by right|by eexists]. Qed.

Lemma pending_insert ts i k s s' :
  ts !! i = Some (mkTask k s) -> pending_in ts -> pending_in (<[i := mkTask k s']> ts).
Proof.
  intros Hi (t & Ht & Hw). apply list_elem_of_lookup_1 in Ht as [j Hj].
  destruct (decide (i = j)) as [->|Hne].
  - rewrite Hj in Hi; simplify_eq. exists (mkTask k s'). split; [|done].
    apply list_elem_of_lookup_2 with j. apply list_lookup_insert_eq. by eapply lookup_lt_Some.
  - exists t. split; [|done]. apply list_elem_of_lookup_2 with j.
    by rewrite list_lookup_insert_ne.
Qed.

Lemma pending_delete ts i t :
  ts !! i = Some t -> waiting_id t = None -> pending_in ts -> pending_in (delete i ts).
Proof.
  intros Hi Hn (t' & Ht & Hw). apply list_elem_of_lookup_1 in Ht as [j Hj].
  exists t'. split; [|done].
  destruct (decide (j < i)) as [Hlt|Hge].
  - apply list_elem_of_lookup_2 with j. by rewrite list_lookup_delete_lt.
  - assert (i <> j) by (intros ->; rewrite Hj in Hi; simplify_eq; by rewrite Hn in Hw).
    apply list_elem_of_lookup_2 with (j - 1).
    rewrite list_lookup_delete_ge by lia. by replace (S (j - 1)) with j by lia.
Qed.

#[export] Hint Resolve pending_app pending_snoc_wait : wave.

(** ** What a resumption does to the busy flag *)

Lemma resume_app_idle k s w : w_phase w <> Mounted -> w_app (resume k s w) = w_app w.
Proof.
  intros Hm. resume_cases k s; rewrite ?set_state_app; repeat case_decide;
    rewrite ?set_state_phase in *; done.
Qed.

Lemma resume_busy k s w :
  w_phase w = Mounted ->
  mining (w_app (resume k s w)) = false \/
  (mining (w_app (resume k s w)) = mining (w_app w) /\ waiting_id (mkTask k (Some s)) = None) \/
  (exists id, w_tasks (resume k s w) = w_tasks w ++ [mkTask (KWaveWait id) None]).
Proof.
  intros Hm. resume_cases k s; rewrite ?set_state_app, ?set_state_phase, ?decide_True by done;
    simpl;
    first [by left | by right; left | by right; right; eexists].
Qed.

Lemma busy_frame w w' :
  w_phase w' = w_phase w -> mining (w_app w') = mining (w_app w) ->
  (tx_pending w -> tx_pending w') -> busy_inv w -> busy_inv w'.
Proof.
  intros Hp Hm Ht [H1 H2]. unfold busy_inv. rewrite Hp, Hm. split; [done|]. auto.
Qed.

Lemma start_busy w h : handler_start h -> busy_inv w -> busy_inv (h w).
Proof.
  intros Hh. destruct (Hh w) as (Hp & Ha & _ & _ & _ & l & Ht & _).
  apply (busy_frame w); [done|by rewrite Ha|]. unfold tx_pending. rewrite Ht. apply pending_app.
Qed.

Lemma step_busy_inv w e w' : step w e w' -> busy_inv w -> busy_inv w'.
Proof.
  intros Hs Hinv. destruct Hs.
  - unfold mount. destruct (mount_start (set_phase Mounted w)) as (Hp & Ha & _).
    split; rewrite Hp; [done|]. intros _ Hm. rewrite Ha in Hm. simpl in Hm.
    by rewrite (proj1 Hinv H) in Hm.
  - split; simpl; done.
  - unfold handleValue. apply (busy_frame w); [by rewrite set_state_phase| |
      by unfold tx_pending; rewrite set_state_tasks|done].
    rewrite set_state_app. by case_decide.
  - by apply (start_busy w wave); [apply wave_start|].
  - by apply (start_busy w connectWallet); [apply connectWallet_start|].
  - apply (busy_frame w); simpl;
      [by rewrite (settle_phase _ _ _ _ _ H0)|by rewrite (settle_app _ _ _ _ _ H0)| |done].
    unfold tx_pending; simpl. by apply (pending_insert _ _ _ None).
  - set (w0 := set_tasks (delete i (w_tasks w)) w).
    destruct (decide (w_phase w = Mounted)) as [Hm|Hm].
    + destruct (resume_busy k s w0 Hm) as [Hf|[[Hf Hn]|[id Ht]]].
      * split; rewrite resume_phase; simpl; [intros Hp; congruence|]. intros _. by rewrite Hf.
      * apply (busy_frame w); [by rewrite resume_phase|done| |done].
        intros Hp. unfold tx_pending. destruct (resume_tasks k s w0) as [->|[k' ->]];
          [|apply pending_app]; by eapply pending_delete.
      * split; rewrite resume_phase; simpl; [intros Hp; congruence|]. intros _ _.
        unfold tx_pending. rewrite Ht. apply pending_snoc_wait.
    + split; rewrite resume_phase; simpl; [|done]. intros Hn.
      rewrite resume_app_idle by done. by apply Hinv.
  - by apply (busy_frame w).
  - unfold deliver_to, onNewWave. apply (busy_frame w); [by rewrite set_state_phase| |
      by unfold tx_pending; rewrite set_state_tasks|done].
    rewrite set_state_app. by case_decide.
  - by apply (busy_frame w).
  - by apply (busy_frame w).
Qed.

Lemma reachable_busy_inv w : reachable w -> busy_inv w.
Proof.
  intros (eth & h & Hr). revert Hr. apply (reachable_invariant busy_inv); [|done].
  apply step_busy_inv.
Qed.

(** C3: in every reachable world where the component is mounted, the busy
    flag is true only while some transaction of this client awaits its
    confirmation: the flag is never stuck (spec P4, one direction). *)
Theorem busy_implies_pending w :
  reachable w -> w_phase w = Mounted -> mining (w_app w) = true -> tx_pending w.
Proof. intros Hr. apply (reachable_busy_inv w Hr). Qed.

Lemma busy_implies_pending_witness :
  let w := run_or (init (Some demo_provider) [])
             [EvMount; EvClickWave; EvResume 3; EvSettle 3 AnsOk; EvResume 3] in
  reachable w /\ w_phase w = Mounted /\ mining (w_app w) = true /\ tx_pending w.
Proof.
  cbv zeta.
  assert (Hr : reachable (run_or (init (Some demo_provider) [])
             [EvMount; EvClickWave; EvResume 3; EvSettle 3 AnsOk; EvResume 3])).
  { eexists _, _. apply run_or_reachable. vm_compute. by eexists. }
  assert (Hm : w_phase (run_or (init (Some demo_provider) [])
             [EvMount; EvClickWave; EvResume 3; EvSettle 3 AnsOk; EvResume 3]) = Mounted)
    by (vm_compute; reflexivity).
  assert (Hb : mining (w_app (run_or (init (Some demo_provider) [])
             [EvMount; EvClickWave; EvResume 3; EvSettle 3 AnsOk; EvResume 3])) = true)
    by (vm_compute; reflexivity).
  split; [exact Hr|]. split; [exact Hm|]. split; [exact Hb|].
  exact (busy_implies_pending _ Hr Hm Hb).
Defined.

(** The transactions of this client that await their confirmation. *)
Definition pending_txs (w : World) : list nat := omap waiting_id (w_tasks w).

Lemma pending_txs_pending w id : id ∈ pending_txs w -> tx_pending w.
Proof.
  unfold pending_txs. intros (t & Ht & Hw)%list_elem_of_omap. exists t. split; [done|].
  by rewrite Hw.
Qed.

(** C5: the code does not reject a second submission while one is pending
    (spec P3 asks for [AlreadyPendingError]): two clicks while the wallet
    prompt is open send two transactions, and both await confirmation at
    the same time. *)
Theorem two_transactions_pending :
  exists w, reachable_from (Some demo_provider) [] w /\ w_phase w = Mounted /\
    mining (w_app w) = true /\ pending_txs w = [0%nat; 1%nat].
Proof.
  exists (run_or (init (Some demo_provider) [])
    [EvMount; EvClickWave; EvClickWave; EvResume 3; EvResume 3; EvSettle 3 AnsOk;
     EvSettle 4 AnsOk; EvResume 3; EvResume 3]).
  split; [apply run_or_reachable; vm_compute; by eexists|].
  vm_compute. by split_and!.
Qed.

(** C6: the first confirmation clears the busy flag although the second
    transaction is still pending: the button is enabled again while a
    transaction is in flight (spec P4: no sequence leaves the flag false
    with a transaction pending). *)
Theorem busy_cleared_while_pending :
  exists w, reachable_from (Some demo_provider) [] w /\ w_phase w = Mounted /\
    mining (w_app w) = false /\ tx_pending w /\ pending_txs w = [1%nat].
Proof.
  set (w := run_or (init (Some demo_provider) [])
    [EvMount; EvClickWave; EvClickWave; EvResume 3; EvResume 3; EvSettle 3 AnsOk;
     EvSettle 4 AnsOk; EvResume 3; EvResume 3; EvMine 0 1690000000 true;
     EvSettle 3 AnsOk; EvResume 3]).
  assert (Hp : pending_txs w = [1%nat]) by (vm_compute; reflexivity).
  exists w. split; [apply run_or_reachable; vm_compute; by eexists|].
  split_and!; [vm_compute; reflexivity|vm_compute; reflexivity| |done].
  apply (pending_txs_pending w 1). rewrite Hp. by left.
Qed.

(** ** Every awaited transaction is known to the chain *)

(** The transaction a task refers to: the one it waits for, or the handle
    a send resolved with. *)
Definition task_tx (t : Task) : option nat :=
  match t with
  | mkTask (KWaveWait id) _ => Some id
  | mkTask (KWaveSend _) (Some (Fulfilled (VTxHandle id))) => Some id
  | _ => None
  end.

Definition tx_ok (w : World) (t : Task) : Prop :=
  forall id, task_tx t = Some id -> tracked (w_chain w) id.

Lemma submit_eq_tracked c a m g n c' id :
  Contract.submit c a m g = (n, c') -> tracked c id -> tracked c' id.
Proof. intros H. pose proof (submit_tracked c a m g id) as Ht. by rewrite H in Ht. Qed.

Lemma submit_eq_new c a m g n c' : Contract.submit c a m g = (n, c') -> tracked c' n.
Proof. intros H. pose proof (submit_tracked_new c a m g) as Ht. by rewrite H in Ht. Qed.

Lemma settle_tracked w k a w0 s id :
  settle w k a = Some (w0, s) -> tracked (w_chain w) id -> tracked (w_chain w0) id.
Proof.
  unfold settle, send_wave. intros H Ht. repeat case_match; simplify_eq/=; eauto using submit_eq_tracked.
Qed.

Lemma settle_handle w v a w0 id :
  settle w (KWaveSend v) a = Some (w0, Fulfilled (VTxHandle id)) -> tracked (w_chain w0) id.
Proof.
  unfold settle, send_wave. intros H. repeat case_match; simplify_eq/=. eauto using submit_eq_new.
Qed.

Lemma step_tracked w e w' id : step w e w' -> tracked (w_chain w) id -> tracked (w_chain w') id.
Proof.
  intros Hs Ht. destruct Hs.
  - unfold mount. by destruct (mount_start (set_phase Mounted w)) as (_&_&_&->&_).
  - done.
  - unfold handleValue. by rewrite set_state_chain.
  - by destruct (wave_start w) as (_&_&_&->&_).
  - by destruct (connectWallet_start w) as (_&_&_&->&_).
  - simpl. by eapply settle_tracked.
  - by rewrite resume_chain.
  - simpl. by eapply mine_tracked.
  - unfold deliver_to, onNewWave. by rewrite set_state_chain.
  - done.
  - by apply submit_tracked.
Qed.

Lemma resume_spawn_wait k s w id :
  w_tasks (resume k s w) = w_tasks w ++ [mkTask (KWaveWait id) None] ->
  exists v, k = KWaveSend v /\ s = Fulfilled (VTxHandle id).
Proof. resume_cases k s; intros Htk; snoc_contra Htk. Qed.

Lemma step_tx_ok w e w' : step w e w' -> tasks_inv tx_ok w -> tasks_inv tx_ok w'.
Proof.
  apply tasks_inv_step.
  - intros w0 e0 w1 t Hs Hok id Hid. by eapply step_tracked, Hok.
  - intros w0 e0 w1 [k s] _ [Hk _] id Hid. by destruct k; simpl in *.
  - intros w0 i k a w1 s _ Hst Hok id Hid. simpl.
    destruct k; simpl in Hid; try done.
    + destruct s as [[]|]; simplify_eq. by eapply settle_handle.
    + simplify_eq. by eapply settle_tracked, Hok.
  - intros w0 i k s k' _ Hok Ht id Hid. destruct k'; simplify_eq/=.
    destruct (resume_spawn_wait _ _ _ _ Ht) as (v & -> & ->).
    rewrite resume_chain. by apply Hok.
Qed.

Lemma reachable_tx_ok w : reachable w -> tasks_inv tx_ok w.
Proof.
  intros (eth & h & Hr). revert Hr. apply (reachable_invariant (tasks_inv tx_ok));
    [apply step_tx_ok|constructor].
Qed.

(** ** The busy flag can always be cleared *)

(** Events caused by the chain and the wallet, not by the user: a block,
    a call answered successfully, a handler resumed. *)
Definition env_event (e : event) : bool :=
  match e with
  | EvMine _ _ _ | EvSettle _ AnsOk | EvResume _ => true
  | _ => false
  end.

Definition env_step (w w' : World) : Prop := exists e, env_event e = true /\ step w e w'.

Lemma env_step_intro w e w' : env_event e = true -> step w e w' -> env_step w w'.
Proof. intros He Hs. by exists e. Qed.

Lemma env_any_step w w' : env_step w w' -> any_step w w'.
Proof. intros (e & _ & Hs). by exists e. Qed.

Lemma env_reachable w w' : reachable w -> rtc env_step w w' -> reachable w'.
Proof.
  intros Hr Hs. induction Hs as [|a b c Hab _ IH]; [done|].
  apply IH. eapply reachable_step; [done|by apply env_any_step].
Qed.

Lemma wait_resume w i id s :
  w_phase w = Mounted -> w_tasks w !! i = Some (mkTask (KWaveWait id) (Some s)) ->
  exists w', step w (EvResume i) w' /\ w_phase w' = Mounted /\ mining (w_app w') = false.
Proof.
  intros Hm Hi. eexists. split; [by apply st_resume|].
  rewrite resume_phase. simpl. rewrite set_state_app. simpl. by rewrite decide_True.
Qed.

Lemma wait_settle w p i id :
  w_eth w = Some p -> w_tasks w !! i = Some (mkTask (KWaveWait id) None) ->
  is_Some (Contract.ch_receipts (w_chain w) !! id) ->
  exists w' s, step w (EvSettle i AnsOk) w' /\ w_phase w' = w_phase w /\
    w_tasks w' !! i = Some (mkTask (KWaveWait id) (Some s)).
Proof.
  intros Hp Hi Hr. destruct (wait_receipt_Some _ _ Hr) as [[[]|e] Hw].
  - exists (set_tasks (<[i := mkTask (KWaveWait id) (Some (Fulfilled VReceipt))]> (w_tasks w)) w), (Fulfilled VReceipt).
    split; [apply st_settle; [done|unfold settle; by rewrite Hp, Hw]|simpl].
    split; [done|]. apply list_lookup_insert_eq. by eapply lookup_lt_Some.
  - exists (set_tasks (<[i := mkTask (KWaveWait id) (Some (Rejected e))]> (w_tasks w)) w), (Rejected e).
    split; [apply st_settle; [done|unfold settle; by rewrite Hp, Hw]|simpl].
    split; [done|]. apply list_lookup_insert_eq. by eapply lookup_lt_Some.
Qed.

Lemma wait_mine w t :
  t ∈ Contract.ch_mempool (w_chain w) ->
  exists w', step w (EvMine (Contract.tx_id t) 0%Z true) w' /\ w_phase w' = w_phase w /\
    w_eth w' = w_eth w /\ w_tasks w' = w_tasks w /\
    is_Some (Contract.ch_receipts (w_chain w') !! Contract.tx_id t).
Proof.
  intros Ht. destruct (mine_enabled _ _ 0%Z true _ Ht eq_refl) as [c Hc].
  exists (set_chain c w). split; [apply st_mine; [unfold Contract.uint256_max; lia|done]|].
  split_and!; [done..|]. by eapply mine_receipt.
Qed.

Lemma waiting_task_settles w i id :
  reachable w -> w_phase w = Mounted -> w_tasks w !! i = Some (mkTask (KWaveWait id) None) ->
  is_Some (Contract.ch_receipts (w_chain w) !! id) ->
  exists w', rtc env_step w w' /\ w_phase w' = Mounted /\ mining (w_app w') = false.
Proof.
  intros Hr Hm Hi Hrc.
  destruct (reachable_tasks_provider w Hr) as [p Hp]; [by intros Hn; rewrite Hn in Hi|].
  destruct (wait_settle w p i id Hp Hi Hrc) as (w1 & s & Hs1 & Hp1 & Hi1).
  destruct (wait_resume w1 i id s) as (w2 & Hs2 & Hm2 & Hf2); [congruence|done|].
  exists w2. split; [|done].
  eapply rtc_l; [eapply env_step_intro; [|exact Hs1]; done|].
  apply rtc_once. eapply env_step_intro; [|exact Hs2]; done.
Qed.

(** C4: from every reachable world where the component is mounted, the
    chain and the wallet alone, with no action of the user, can bring the
    busy flag back to false while the component stays mounted: mining the
    awaited transaction, answering and resuming its confirmation suffice
    (spec P4: the flag is never stuck true). *)
Theorem busy_flag_can_clear w :
  reachable w -> w_phase w = Mounted ->
  exists w', rtc env_step w w' /\ w_phase w' = Mounted /\ mining (w_app w') = false.
Proof.
  intros Hr Hm. destruct (mining (w_app w)) eqn:Hmin; [|by exists w].
  destruct (proj2 (reachable_busy_inv w Hr) Hm Hmin) as ([k s] & Ht & Hw).
  destruct k as [| | | |id| | | | |]; simpl in Hw; try by destruct Hw.
  apply list_elem_of_lookup_1 in Ht as [i Hi].
  destruct s as [s|].
  { destruct (wait_resume w i id s Hm Hi) as (w' & Hs & ?). exists w'.
    split; [apply rtc_once; eapply env_step_intro; [|exact Hs]; done|done]. }
  pose proof (Forall_lookup_1 _ _ _ _ (reachable_tx_ok w Hr) Hi id eq_refl) as Htr.
  destruct Htr as [(t & Hmp & Hid)|Hrc]; [|by eapply waiting_task_settles].
  destruct (wait_mine w t Hmp) as (w1 & Hs1 & Hp1 & He1 & Ht1 & Hrc1). subst id.
  destruct (waiting_task_settles w1 i (Contract.tx_id t)) as (w' & Hrt & ?);
    [eapply reachable_step; [done|by eexists]|congruence|by rewrite Ht1|done|].
  exists w'. split; [|done]. eapply rtc_l; [eapply env_step_intro; [|exact Hs1]; done|done].
Qed.

Lemma busy_flag_can_clear_witness :
  let w := run_or (init (Some demo_provider) [])
             [EvMount; EvClickWave; EvResume 3; EvSettle 3 AnsOk; EvResume 3] in
  reachable w /\ w_phase w = Mounted /\ mining (w_app w) = true /\
  exists w', rtc env_step w w' /\ w_phase w' = Mounted /\ mining (w_app w') = false.
Proof.
  cbv zeta.
  assert (Hr : reachable (run_or (init (Some demo_provider) [])
             [EvMount; EvClickWave; EvResume 3; EvSettle 3 AnsOk; EvResume 3])).
  { eexists _, _. apply run_or_reachable. vm_compute. by eexists. }
  assert (Hm : w_phase (run_or (init (Some demo_provider) [])
             [EvMount; EvClickWave; EvResume 3; EvSettle 3 AnsOk; EvResume 3]) = Mounted)
    by (vm_compute; reflexivity).
  split; [exact Hr|]. split; [exact Hm|]. split; [vm_compute; reflexivity|].
  exact (busy_flag_can_clear _ Hr Hm).
Defined.
