(* ===== verification/Completion.v ===== *)
(** * Every pending handler runs to its end

    The [async] handlers of src/src/App.jsx are suspended at [await]s
    (the tasks of [State]).  [handlers_complete] shows that from every
    reachable world the chain and the wallet alone, answering every call
    successfully and mining every transaction, bring the world to one
    where no handler is suspended.  The argument is a measure: [weight]
    counts twice the [await]s each handler has left ([cont_depth]) plus
    one for an [await] whose promise has not settled yet; settling a
    promise or resuming a handler lowers it.  It needs two facts on the
    tasks of reachable worlds: an unsettled [await] is one the
    environment can answer ([pending_ok]), and an awaited transaction is
    known to the chain ([TxProperties.reachable_tx_ok]). *)

From S2P Require Import Prelude JsNum Wallet Chain State WalletSession TxLifecycle WaveLog WaveCount Semantics SessionProperties TxProperties.

(** ** Unsettled [await]s are answerable *)

(** The [await]s on a call to the wallet or the node, which [settle]
    answers; the others are on [setupContract] and settled at once. *)
Definition settleable (k : Cont) : bool :=
  match k with
  | KCheckAccounts | KConnectAccounts | KWaveSend _ | KWaveWait _ | KAllFetch | KCountFetch => true
  | KWaveSetup _ | KAllSetup | KCountSetup | KSubscribeSetup => false
  end.

Definition pending_ok (w : World) (t : Task) : Prop :=
  t_settled t = None -> settleable (t_cont t) = true.

Lemma resume_spawn_settleable k s w k' :
  w_tasks (resume k s w) = w_tasks w ++ [mkTask k' None] -> settleable k' = true.
Proof. resume_cases k s; intros Ht; snoc_contra Ht. Qed.

Lemma step_pending_ok w e w' : step w e w' -> tasks_inv pending_ok w -> tasks_inv pending_ok w'.
Proof.
  apply tasks_inv_step.
  - done.
  - intros w0 e0 w1 [k s] _ [_ Hs] Hn. simpl in *. subst s. destruct k; simpl in *; congruence.
  - done.
  - intros w0 i k s k' _ _ Ht _. exact (resume_spawn_settleable k s (set_tasks (delete i (w_tasks w0)) w0) k' Ht).
Qed.

Lemma reachable_pending_ok w : reachable w -> tasks_inv pending_ok w.
Proof.
  intros (eth & h & Hr). revert Hr.
  apply (reachable_invariant (tasks_inv pending_ok)); [apply step_pending_ok|constructor].
Qed.

(** ** The measure *)

Definition task_weight (t : Task) : nat :=
  2 * cont_depth (t_cont t) + match t_settled t with Some _ => 0 | None => 1 end.

Definition weight (ts : list Task) : nat := sum_list_with task_weight ts.

Lemma cont_depth_pos k : 1 <= cont_depth k.
Proof. destruct k; simpl; lia. Qed.

Lemma task_weight_settled k s : task_weight (mkTask k (Some s)) = 2 * cont_depth k.
Proof. done. Qed.
Lemma task_weight_unsettled k : task_weight (mkTask k None) = 2 * cont_depth k + 1.
Proof. done. Qed.

Lemma weight_cons t ts : weight (t :: ts) = task_weight t + weight ts.
Proof. done. Qed.

Lemma weight_app ts1 ts2 : weight (ts1 ++ ts2) = weight ts1 + weight ts2.
Proof. apply sum_list_with_app. Qed.

Lemma resume_spawn_depth k s w k' :
  w_tasks (resume k s w) = w_tasks w ++ [mkTask k' None] -> cont_depth k' < cont_depth k.
Proof.
  resume_cases k s; intros Ht;
    first [ apply app_inv_head in Ht; simplify_eq; simpl; lia
          | apply (f_equal length) in Ht; rewrite length_app in Ht; simpl in Ht; lia ].
Qed.

(** Resuming the first task lowers the weight. *)
Lemma resume_weight k s w rest :
  w_tasks w = rest ->
  weight (w_tasks (resume k s w)) < weight (mkTask k (Some s) :: rest).
Proof.
  intros Hw. destruct (resume_tasks k s w) as [->|[k' Ht]].
  - rewrite Hw, weight_cons, task_weight_settled. pose proof (cont_depth_pos k). lia.
  - pose proof (resume_spawn_depth _ _ _ _ Ht) as Hd. rewrite Ht, weight_app, Hw.
    rewrite !weight_cons, task_weight_settled, task_weight_unsettled. unfold weight; simpl. lia.
Qed.

(** ** The environment can always lower the weight *)

Lemma settle_enabled w p k :
  w_eth w = Some p -> settleable k = true ->
  (forall id, k = KWaveWait id -> is_Some (Contract.ch_receipts (w_chain w) !! id)) ->
  exists w0 s, settle w k AnsOk = Some (w0, s) /\ w_tasks w0 = w_tasks w.
Proof.
  intros Hp Hk Hr. destruct (settle w k AnsOk) as [[w0 s]|] eqn:E.
  - exists w0, s. split; [done|]. by eapply settle_tasks.
  - exfalso. unfold settle in E. rewrite Hp in E.
    destruct k as [| | |v|id| | | | |]; try discriminate; simpl in E; repeat case_match; try discriminate.
    destruct (wait_receipt_Some _ _ (Hr id eq_refl)) as [r Hw]. congruence.
Qed.

Lemma settle_first w p k rest :
  w_eth w = Some p -> w_tasks w = mkTask k None :: rest -> settleable k = true ->
  (forall id, k = KWaveWait id -> is_Some (Contract.ch_receipts (w_chain w) !! id)) ->
  exists w', env_step w w' /\ weight (w_tasks w') < weight (w_tasks w).
Proof.
  intros Hp Ht Hk Hr. destruct (settle_enabled w p k Hp Hk Hr) as (w0 & s & Hs & Hts).
  exists (set_tasks (<[0 := mkTask k (Some s)]> (w_tasks w)) w0). split.
  - apply (env_step_intro _ (EvSettle 0 AnsOk)); [done|]. apply st_settle; [by rewrite Ht|done].
  - simpl. rewrite Ht. simpl. rewrite task_weight_settled, task_weight_unsettled. lia.
Qed.

Lemma first_task_progress w t rest :
  reachable w -> w_tasks w = t :: rest ->
  exists w', rtc env_step w w' /\ weight (w_tasks w') < weight (w_tasks w).
Proof.
  intros Hr Ht. destruct t as [k [s|]].
  - exists (resume k s (set_tasks (delete 0 (w_tasks w)) w)). split.
    + apply rtc_once. apply (env_step_intro _ (EvResume 0)); [done|].
      apply st_resume. by rewrite Ht.
    + pose proof (resume_weight k s (set_tasks (delete 0 (w_tasks w)) w) rest) as Hw.
      rewrite Ht in Hw |- *. by apply Hw.
  - destruct (reachable_tasks_provider w Hr) as [p Hp]; [by rewrite Ht|].
    assert (Hk : settleable k = true).
    { exact (Forall_lookup_1 _ _ 0 _ (reachable_pending_ok w Hr) ltac:(by rewrite Ht) eq_refl). }
    assert (Hrc : (forall id, k = KWaveWait id -> is_Some (Contract.ch_receipts (w_chain w) !! id)) \/
                  exists id, k = KWaveWait id /\ ~ is_Some (Contract.ch_receipts (w_chain w) !! id)).
    { destruct k as [| | | |id| | | | |]; try (left; by intros ? ?).
      destruct (decide (is_Some (Contract.ch_receipts (w_chain w) !! id))) as [Hs|Hs];
        [left; by intros ? [= <-]|right; by exists id]. }
    destruct Hrc as [Hrc|(id & -> & Hn)].
    + destruct (settle_first w p k rest Hp Ht Hk Hrc) as (w' & Hs' & Hlt).
      exists w'. split; [by apply rtc_once|done].
    + pose proof (Forall_lookup_1 _ _ 0 _ (reachable_tx_ok w Hr) ltac:(by rewrite Ht) id eq_refl)
        as [(tx & Hmp & Hid)|Hrc]; [|done].
      destruct (wait_mine w tx Hmp) as (w1 & Hs1 & Hp1 & He1 & Ht1 & Hrc1). subst id.
      destruct (settle_first w1 p (KWaveWait (Contract.tx_id tx)) rest) as (w' & Hs' & Hlt);
        [congruence|congruence|done|by intros ? [= <-]|].
      exists w'. split; [|by rewrite Ht1 in Hlt].
      eapply rtc_l; [exact (env_step_intro _ (EvMine (Contract.tx_id tx) 0%Z true) _ eq_refl Hs1)|].
      by apply rtc_once.
Qed.

Lemma env_step_phase w w' : env_step w w' -> w_phase w' = w_phase w.
Proof.
  intros (e & He & Hs). destruct Hs; simpl in He; try discriminate.
  - by apply (settle_phase _ _ _ _ _ H0).
  - by rewrite resume_phase.
  - done.
Qed.

Lemma env_rtc_phase w w' : rtc env_step w w' -> w_phase w' = w_phase w.
Proof. induction 1 as [|a b c Hab _ IH]; [done|]. rewrite IH. by apply env_step_phase. Qed.

(** ** Completion *)

(** C10: from every reachable world, the chain and the wallet alone (blocks
    mined, calls answered successfully, handlers resumed; no action of the
    user) bring the component to a world where no handler is suspended:
    every [async] handler started, including those started by clicks and
    by the mount, runs to its end.  The component stays in the phase it
    was in. *)
Theorem handlers_complete w :
  reachable w ->
  exists w', rtc env_step w w' /\ w_tasks w' = [] /\ w_phase w' = w_phase w.
Proof.
  intros Hr. remember (weight (w_tasks w)) as n eqn:Hn. revert w Hr Hn.
  induction n as [n IH] using lt_wf_ind. intros w Hr Hn.
  destruct (w_tasks w) as [|t rest] eqn:Ht; [by exists w|].
  destruct (first_task_progress w t rest Hr Ht) as (w1 & Hs1 & Hlt).
  destruct (IH (weight (w_tasks w1))) with w1 as (w' & Hs' & Hnil & Hph);
    [rewrite Ht in Hlt; lia|by eapply env_reachable|done|].
  exists w'. split_and!; [by etrans|done|]. rewrite Hph. by apply env_rtc_phase.
Qed.

Lemma handlers_complete_witness :
  let w := run_or (init (Some demo_provider) [demo_wave]) [EvMount; EvClickWave; EvClickConnect] in
  reachable w /\ length (w_tasks w) = 5 /\
  exists w', rtc env_step w w' /\ w_tasks w' = [] /\ w_phase w' = w_phase w.
Proof.
  cbv zeta.
  assert (Hr : reachable (run_or (init (Some demo_provider) [demo_wave])
                 [EvMount; EvClickWave; EvClickConnect])).
  { eexists _, _. apply run_or_reachable. vm_compute. by eexists. }
  split; [exact Hr|]. split; [vm_compute; reflexivity|]. exact (handlers_complete _ Hr).
Defined.
